(** * VerticalOptionOrder: a shallow embedding of
      src/objects/broker/robinhood/VerticalOptionOrder.js

    The definitions come in four modules.
    - [JS]: the fragment of JavaScript the class relies on (dynamic values,
      property reads, [typeof], [===], [Number], relational comparison,
      [Date]).
    - [Lodash]: [_.sortBy] on one property.
    - [VerticalOptionOrder]: the class itself: constructor with its nested
      [_validate], [submit], [getOrders] and the accessors, over an explicit
      world (object heap, network log, identifier generator).
    - [Samples]: concrete sessions, parameter sets and provider records.
    The properties follow. *)

From Stdlib Require Import ZArith String Ascii List Floats Sorted Permutation Lia.
From stdpp Require Import gmap strings list fin_maps relations pretty.

Set Warnings "-register-all".
Local Open Scope string_scope.

(* ===================================================================== *)
(** * The JavaScript fragment *)
(* ===================================================================== *)

Module JS.

(** Dynamic values. A number is an IEEE-754 double, as in the language. A
    string is a sequence of 8-bit code units. An object carries the name of
    its class ("Object" for a literal or a parsed JSON object) and its own
    properties. *)
Inductive value : Type :=
| VUndefined
| VNull
| VBool (b : bool)
| VNum (x : float)
| VStr (s : string)
| VArr (xs : list value)
| VObj (cls : string) (m : gmap string value).

(** Exceptions: [new Error(message)] and the engine's [TypeError] (its
    engine-chosen text is not modelled). *)
Inductive exn : Type :=
| Error (message : string)
| TypeError.

Inductive result (A : Type) : Type :=
| Ok (a : A)
| Throw (e : exn).
Arguments Ok {A} a.
Arguments Throw {A} e.

#[export] Instance result_ret : MRet result := fun _ a => Ok a.
#[export] Instance result_bind : MBind result := fun _ _ f r =>
  match r with
  | Ok a => f a
  | Throw e => Throw e
  end.

(** [typeof v] *)
Definition typeof (v : value) : string :=
  match v with
  | VUndefined => "undefined"
  | VNull => "object"
  | VBool _ => "boolean"
  | VNum _ => "number"
  | VStr _ => "string"
  | VArr _ => "object"
  | VObj _ _ => "object"
  end.

(** Truthiness, as tested by [if (v)] and by [assert(v, ...)]. *)
Definition truthy (v : value) : bool :=
  match v with
  | VUndefined => false
  | VNull => false
  | VBool b => b
  | VNum x => negb (PrimFloat.eqb x 0 || negb (PrimFloat.eqb x x))
  | VStr s => negb (String.eqb s "")
  | VArr _ => true
  | VObj _ _ => true
  end.

(** [a === b]. Two object operands are equal when they are the same
    reference; nested values carry no reference here, so two object operands
    compare unequal. The class compares only against [undefined] and string
    literals. *)
Definition strict_eq (a b : value) : bool :=
  match a, b with
  | VUndefined, VUndefined => true
  | VNull, VNull => true
  | VBool x, VBool y => Bool.eqb x y
  | VNum x, VNum y => PrimFloat.eqb x y
  | VStr x, VStr y => String.eqb x y
  | _, _ => false
  end.

(** [v === v]: false only for NaN. *)
Definition reflexive (v : value) : bool :=
  match v with
  | VNum x => PrimFloat.eqb x x
  | _ => true
  end.

(** [v.k] for [v] other than [undefined] and [null]. A primitive or an
    array has none of the property names this class reads. *)
Definition prop (v : value) (k : string) : value :=
  match v with
  | VObj _ m => default VUndefined (m !! k)
  | _ => VUndefined
  end.

(** [v.k] in general: reading a property of [undefined] or [null] throws. *)
Definition get_prop (v : value) (k : string) : result value :=
  match v with
  | VUndefined => Throw TypeError
  | VNull => Throw TypeError
  | _ => Ok (prop v k)
  end.

(** [v instanceof C] for a class [C] without subclasses. *)
Definition instanceof (v : value) (C : string) : bool :=
  match v with
  | VObj cls _ => String.eqb cls C
  | _ => false
  end.

(** [assert(cond, error)] of Node's assert module: throws [error] when
    [cond] is falsy. *)
Definition assert (cond : bool) (error : exn) : result unit :=
  if cond then Ok tt else Throw error.

(** [array.indexOf(x)] on an array of strings, with [===] on elements. *)
Fixpoint indexOf_from (i : Z) (array : list string) (x : value) : Z :=
  match array with
  | [] => -1
  | y :: array' =>
      if strict_eq (VStr y) x then i else indexOf_from (i + 1) array' x
  end.
Definition indexOf (array : list string) (x : value) : Z :=
  indexOf_from 0 array x.

(** [String.prototype.toLowerCase] on 8-bit code units: A-Z and the
    Latin-1 capitals (all of C0-DE but the multiplication sign D7). *)
Definition lower_unit (c : ascii) : ascii :=
  let n := N_of_ascii c in
  if ((65 <=? n) && (n <=? 90) || (192 <=? n) && (n <=? 222) && negb (n =? 215))%N
  then ascii_of_N (n + 32)
  else c.

Fixpoint lower_string (s : string) : string :=
  match s with
  | EmptyString => EmptyString
  | String c s' => String (lower_unit c) (lower_string s')
  end.

(** [v.toLowerCase()]: a method of strings only. *)
Definition toLowerCase (v : value) : result value :=
  match v with
  | VStr s => Ok (VStr (lower_string s))
  | _ => Throw TypeError
  end.

(** What the class uses of the engine and is not determined by the
    language's arithmetic-free core: the conversions between strings and
    doubles, and [Date.parse] outside the UTC date-time format. *)
Record Platform : Type := {
  StringToNumber : string -> float;
  NumberToString : float -> string;
  DateParseOther : string -> option Z
}.

Section Conversions.
Context (P : Platform).

(** [String(v)]; [Array.prototype.join] renders [undefined] and [null]
    elements as the empty string. Objects are taken not to override
    [toString]. *)
Fixpoint ToString (v : value) : string :=
  match v with
  | VUndefined => "undefined"
  | VNull => "null"
  | VBool b => if b then "true" else "false"
  | VNum x => NumberToString P x
  | VStr s => s
  | VArr xs =>
      String.concat ","
        (List.map (fun e => match e with
                            | VUndefined => ""
                            | VNull => ""
                            | _ => ToString e
                            end) xs)
  | VObj _ _ => "[object Object]"
  end.

Definition ToPrimitive (v : value) : value :=
  match v with
  | VArr _ => VStr (ToString v)
  | VObj _ _ => VStr (ToString v)
  | _ => v
  end.

(** [Number(v)] *)
Definition ToNumber (v : value) : float :=
  match ToPrimitive v with
  | VUndefined => nan
  | VNull => 0%float
  | VBool b => if b then 1%float else 0%float
  | VNum x => x
  | VStr s => StringToNumber P s
  | _ => nan
  end.

(** [a < b]: strings by code units, anything else as numbers (false when
    either side is NaN). [a > b] is [js_lt b a]. *)
Definition js_lt (a b : value) : bool :=
  match ToPrimitive a, ToPrimitive b with
  | VStr x, VStr y => String.ltb x y
  | pa, pb => PrimFloat.ltb (ToNumber pa) (ToNumber pb)
  end.

(** ** Dates *)

(** A Date holds a time value: milliseconds since the epoch, or none
    (an invalid date, whose time value is NaN). *)
Record Date : Type := { time_value : option Z }.

Definition digit (c : ascii) : option Z :=
  let n := Z.of_N (N_of_ascii c) in
  if (48 <=? n)%Z && (n <=? 57)%Z then Some (n - 48)%Z else None.

Fixpoint take_digits (n : nat) (acc : Z) (cs : list ascii) : option (Z * list ascii) :=
  match n with
  | O => Some (acc, cs)
  | S n' =>
      match cs with
      | [] => None
      | c :: cs' => d ← digit c; take_digits n' (10 * acc + d)%Z cs'
      end
  end.

Definition expect (c : ascii) (cs : list ascii) : option (list ascii) :=
  match cs with
  | [] => None
  | c' :: cs' => if Ascii.eqb c c' then Some cs' else None
  end.

Definition is_leap (y : Z) : bool :=
  ((y mod 4 =? 0) && (negb (y mod 100 =? 0) || (y mod 400 =? 0)))%Z.

Definition DaysInMonth (y m : Z) : Z :=
  if (m =? 2)%Z then (if is_leap y then 29 else 28)%Z
  else if ((m =? 4) || (m =? 6) || (m =? 9) || (m =? 11))%Z then 30%Z
  else 31%Z.

(** Days from 1970-01-01 to the civil date [y]-[m]-[d] (proleptic
    Gregorian calendar). *)
Definition days_from_civil (y m d : Z) : Z :=
  (let y' := if m <=? 2 then y - 1 else y in
   let era := y' / 400 in
   let yoe := y' - era * 400 in
   let mp := (m + 9) mod 12 in
   let doy := (153 * mp + 2) / 5 + d - 1 in
   let doe := yoe * 365 + yoe / 4 - yoe / 100 + doy in
   era * 146097 + doe - 719468)%Z.

(** The language's date-time string format in UTC:
    YYYY-MM-DDTHH:mm:ssZ and YYYY-MM-DDTHH:mm:ss.sssZ, every element in
    range. *)
Definition parse_utc (s : string) : option Z :=
  '(y, r) ← take_digits 4 0%Z (list_ascii_of_string s);
  r ← expect "-" r;
  '(mo, r) ← take_digits 2 0%Z r;
  r ← expect "-" r;
  '(d, r) ← take_digits 2 0%Z r;
  r ← expect "T" r;
  '(h, r) ← take_digits 2 0%Z r;
  r ← expect ":" r;
  '(mi, r) ← take_digits 2 0%Z r;
  r ← expect ":" r;
  '(sec, r) ← take_digits 2 0%Z r;
  '(ms, r) ← match expect "." r with
             | Some r' => take_digits 3 0%Z r'
             | None => Some (0%Z, r)
             end;
  r ← expect "Z" r;
  match r with
  | [] =>
      if ((1 <=? mo) && (mo <=? 12) && (1 <=? d) && (d <=? DaysInMonth y mo)
          && (h <=? 23) && (mi <=? 59) && (sec <=? 59))%Z
      then Some ((((days_from_civil y mo d * 24 + h) * 60 + mi) * 60 + sec) * 1000 + ms)%Z
      else None
  | _ :: _ => None
  end.

(** [Date.parse(s)] *)
Definition Date_parse (s : string) : option Z :=
  match parse_utc s with
  | Some t => Some t
  | None => DateParseOther P s
  end.

(** [TimeClip(ToInteger(x))]: truncate towards zero; none when [x] is not
    finite or beyond 8.64e15 in magnitude. *)
Definition TimeClip (x : float) : option Z :=
  match Prim2SF x with
  | S754_zero _ => Some 0%Z
  | S754_finite sgn m e =>
      let mag := (if 0 <=? e then Z.pos m * 2 ^ e else Z.pos m / 2 ^ (- e))%Z in
      if (mag <=? 8640000000000000)%Z
      then Some (if sgn then - mag else mag)%Z
      else None
  | _ => None
  end.

(** [new Date(v)] *)
Definition new_Date (v : value) : Date :=
  match ToPrimitive v with
  | VStr s => {| time_value := Date_parse s |}
  | p => {| time_value := TimeClip (ToNumber p) |}
  end.

End Conversions.

End JS.

(* ===================================================================== *)
(** * lodash: [_.sortBy(collection, key)] *)
(* ===================================================================== *)

Module Lodash.
Import JS.

(** An element decorated by [baseOrderBy]: its criterion, its position in
    the input, and the element. *)
Record decorated (A : Type) : Type := {
  criteria : value;
  index : Z;
  payload : A
}.
Arguments criteria {A} d.
Arguments index {A} d.
Arguments payload {A} d.

Section SortBy.
Context (P : Platform).

(** [compareAscending(value, other)] of lodash 4; no value here is a
    symbol. *)
Definition compareAscending (value other : value) : Z :=
  if negb (strict_eq value other) then
    let valIsDefined := negb (strict_eq value VUndefined) in
    let valIsNull := strict_eq value VNull in
    let valIsReflexive := reflexive value in
    let valIsSymbol := false in
    let othIsDefined := negb (strict_eq other VUndefined) in
    let othIsNull := strict_eq other VNull in
    let othIsReflexive := reflexive other in
    let othIsSymbol := false in
    if (negb othIsNull && negb othIsSymbol && negb valIsSymbol && js_lt P other value)
       || (valIsSymbol && othIsDefined && othIsReflexive && negb othIsNull && negb othIsSymbol)
       || (valIsNull && othIsDefined && othIsReflexive)
       || (negb valIsDefined && othIsReflexive)
       || negb valIsReflexive
    then 1%Z
    else if (negb valIsNull && negb valIsSymbol && negb othIsSymbol && js_lt P value other)
       || (othIsSymbol && valIsDefined && valIsReflexive && negb valIsNull && negb valIsSymbol)
       || (othIsNull && valIsDefined && valIsReflexive)
       || (negb othIsDefined && valIsReflexive)
       || negb othIsReflexive
    then (-1)%Z
    else 0%Z
  else 0%Z.

(** [compareMultiple] with a single criterion and no explicit order: ties
    fall back on the input position, which makes the sort stable. *)
Definition compareMultiple {A} (object other : decorated A) : Z :=
  let r := compareAscending (criteria object) (criteria other) in
  if negb (r =? 0)%Z then r else (index object - index other)%Z.

Fixpoint decorate {A} (iteratee : A -> value) (i : Z) (collection : list A)
  : list (decorated A) :=
  match collection with
  | [] => []
  | x :: collection' =>
      {| criteria := iteratee x; index := i; payload := x |}
      :: decorate iteratee (i + 1) collection'
  end.

(** [Array.prototype.sort(comparer)], as insertion sort. For a comparer
    that is a total order on the elements (as [compareMultiple] is on
    keys of one primitive type) every sorting algorithm returns this
    list. *)
Fixpoint insert_by {A} (comparer : A -> A -> Z) (x : A) (sorted : list A) : list A :=
  match sorted with
  | [] => [x]
  | y :: sorted' =>
      if (comparer x y <=? 0)%Z then x :: y :: sorted'
      else y :: insert_by comparer x sorted'
  end.

Definition sort {A} (comparer : A -> A -> Z) (array : list A) : list A :=
  foldr (insert_by comparer) [] array.

(** [_.sortBy(collection, iteratee)] *)
Definition sortBy {A} (collection : list A) (iteratee : A -> value) : list A :=
  List.map payload (sort compareMultiple (decorate iteratee 0 collection)).

End SortBy.

End Lodash.

(* ===================================================================== *)
(** * The class *)
(* ===================================================================== *)

Module VerticalOptionOrder.
Import JS.

(** ** Collaborators and the world *)

(** Modelled from the spec: the Authenticated Session (class User, not in
    src/), an object. It answers whether it is authenticated, and gives
    its account identifier and bearer token. [isAuthenticated] is [None]
    for an object without such a method, and otherwise what the call
    returns. A session that is [undefined] or [null], on which reading
    [user.isAuthenticated] itself raises a [TypeError], is not a value of
    this type: what is stated below about a session that is not
    authenticated is stated so as to hold for such a session too. *)
Record User : Type := {
  isAuthenticated : option bool;
  getAccountNumber : string;
  getAuthToken : string
}.

(** Modelled from the spec: the provider base URL that the base class
    Robinhood (not in src/) stores in [this.url]; [getOrders] spells the
    same URL out. *)
Definition Robinhood_url : string := "https://api.robinhood.com".

(** An instance of the class: what [super()] and [this.user = user] set,
    and the properties the constructor adds by name. *)
Record instance : Type := {
  url : string;
  user : User;
  own : gmap string value
}.

Definition this_prop (this : instance) (key : string) : value :=
  default VUndefined (own this !! key).

(** [this[key] = v] *)
Definition set_prop (key : string) (v : value) (this : instance) : instance :=
  {| url := url this; user := user this; own := <[key := v]> (own this) |}.

(** A request handed to the HTTP library. *)
Record request : Type := {
  method : string;
  uri : string;
  authorization : string;
  json : option value
}.

(** Modelled from the spec: what [Robinhood.handleResponse] (not in src/)
    makes of the transport outcome: it calls the success continuation with
    the parsed body, or the failure continuation with the provider's
    error. *)
Inductive handled : Type :=
| Success (res : value)
| Failure (err : value).

(** References to instances are positions in the heap. *)
Definition loc : Type := nat.

(** The world: the instances allocated so far, the requests sent so far,
    and the identifier generator ([uuid_source n] is the result of the
    [n]-th call of [uuidv4]). *)
Record world : Type := {
  heap : list instance;
  network : list request;
  uuid_source : nat -> string;
  uuid_drawn : nat
}.

Definition M (A : Type) : Type := world -> result A * world.

#[export] Instance M_ret : MRet M := fun _ a w => (Ok a, w).
#[export] Instance M_bind : MBind M := fun _ _ f c w =>
  match c w with
  | (Ok a, w') => f a w'
  | (Throw e, w') => (Throw e, w')
  end.

Definition lift {A} (r : result A) : M A := fun w => (r, w).

(** [uuidv4()] *)
Definition uuidv4 : M value := fun w =>
  (Ok (VStr (uuid_source w (uuid_drawn w))),
   {| heap := heap w; network := network w;
      uuid_source := uuid_source w; uuid_drawn := S (uuid_drawn w) |}).

(** The end of [new C(...)]: the finished instance gets a fresh
    reference. *)
Definition alloc (this : instance) : M loc := fun w =>
  (Ok (length (heap w)),
   {| heap := heap w ++ [this]; network := network w;
      uuid_source := uuid_source w; uuid_drawn := uuid_drawn w |}).

(** Handing [req] to the HTTP library. *)
Definition send (req : request) (w : world) : world :=
  {| heap := heap w; network := network w ++ [req];
     uuid_source := uuid_source w; uuid_drawn := uuid_drawn w |}.

(** [this.key = v] on the instance at [l]. *)
Definition store (l : loc) (key : string) (v : value) (w : world) : world :=
  {| heap := match heap w !! l with
             | Some this => <[l := set_prop key v this]> (heap w)
             | None => heap w
             end;
     network := network w;
     uuid_source := uuid_source w; uuid_drawn := uuid_drawn w |}.

(** ** The constructor *)

Definition object_literal (props : list (string * value)) : value :=
  VObj "Object" (list_to_map props).

(** The nested function [_validate], closed over [user] and [object]. *)
Definition _validate (user : User) (object : value) : result unit :=
  assert
    (match isAuthenticated user with Some b => b | None => false end)
    (Error "Parameter 'user' must be an instance of the User class and authenticated with Robinhood");;
  assert
    (String.eqb (typeof (prop object "side")) "string")
    (Error "Object property 'side' must be a string");;
  assert
    (strict_eq (prop object "side") (VStr "buy") || strict_eq (prop object "side") (VStr "sell"))
    (Error "Object property 'side' must be either 'buy' or 'sell'");;
  assert
    (String.eqb (typeof (prop object "type")) "string")
    (Error "Object property 'type' must be a string");;
  assert
    (strict_eq (prop object "type") (VStr "market") || strict_eq (prop object "type") (VStr "limit"))
    (Error "Object property 'type' must be either 'market' or 'limit'");;
  assert
    (negb (strict_eq (prop object "side") (VStr "buy") && strict_eq (prop object "type") (VStr "market")))
    (Error "Robinhood does not allow buy orders to be of type 'market'");;
  assert
    (String.eqb (typeof (prop object "price")) "number")
    (Error "Object property 'price' must be a number");;
  assert
    (String.eqb (typeof (prop object "timeInForce")) "string")
    (Error "Object property 'timeInForce' must be a string");;
  lowered ← toLowerCase (prop object "timeInForce");
  assert
    (negb (indexOf ["gfd"; "gtc"; "ioc"; "opg"] lowered =? -1)%Z)
    (Error "Object property 'timeInForce' must be either GFD, GTC, IOC, or OPG");;
  assert
    (instanceof (prop object "longLeg") "OptionInstrument")
    (Error "Object property 'optionInstrument' must be an instance of the OptionInstrument class");;
  assert
    (instanceof (prop object "shortLeg") "OptionInstrument")
    (Error "Object property 'optionInstrument' must be an instance of the OptionInstrument class");;
  assert
    (String.eqb (typeof (prop object "quantity")) "number")
    (Error "Object property 'quantity' must be a number").

(** The properties copied from an existing order. *)
Definition copied_keys : list string :=
  ["opening_strategy"; "updated_at"; "ref_id"; "time_in_force";
   "response_category"; "chain_symbol"; "id"; "chain_id"; "state"; "trigger";
   "legs"; "type"; "direction"; "premium"; "price"; "pending_quantity";
   "processed_quantity"; "closing_strategy"; "processed_premium";
   "created_at"; "cancel_url"; "canceled_quantity"; "quantity"].

(** The request payload of a new order. *)
Definition form_of (this : instance) (object ref_id : value) : value :=
  object_literal
    [("account", VStr (url this ++ "/accounts/" ++ getAccountNumber (user this) ++ "/"));
     ("direction", VStr (if strict_eq (prop object "side") (VStr "buy") then "debit" else "credit"));
     ("legs", VArr
        [object_literal
           [("position_effect", VStr (if strict_eq (prop object "side") (VStr "buy") then "close" else "open"));
            ("side", VStr "buy");
            ("ratio_quantity", VNum 1%float);
            ("option", prop (prop object "longLeg") "instrumentURL")];
         object_literal
           [("position_effect", VStr (if strict_eq (prop object "side") (VStr "buy") then "close" else "open"));
            ("side", VStr "sell");
            ("ratio_quantity", VNum 1%float);
            ("option", prop (prop object "shortLeg") "instrumentURL")]]);
     ("price", prop object "price");
     ("time_in_force", prop object "timeInForce");
     ("trigger", VStr "immediate");
     ("type", prop object "type");
     ("quantity", prop object "quantity");
     ("override_day_trade_checks", VBool false);
     ("override_dtbp_checks", VBool false);
     ("ref_id", ref_id)].

(** [new VerticalOptionOrder(user, object)] *)
Definition constructor (user : User) (object : value) : M loc :=
  let this := {| url := Robinhood_url; user := user; own := ∅ |} in
  state ← lift (get_prop object "state");
  if strict_eq state VUndefined && strict_eq (prop object "cancel_url") VUndefined then
    (* This should be a new order *)
    lift (_validate user object);;
    let this := set_prop "executed" (VBool false) this in
    ref_id ← (if negb (strict_eq (prop object "ref_id") VUndefined)
              then mret (prop object "ref_id")
              else uuidv4);
    alloc (set_prop "form" (form_of this object ref_id) this)
  else
    (* This is an existing order *)
    let this := set_prop "executed" (VBool true) this in
    alloc (foldl (fun this key => set_prop key (prop object key) this) this copied_keys).

(** ** Promises *)

(** How the promise returned by [submit] or [getOrders] ends: resolved,
    rejected, or never settled because the success continuation threw. *)
Inductive promise (A : Type) : Type :=
| Resolved (a : A)
| Rejected (reason : value)
| Uncaught (e : exn).
Arguments Resolved {A} a.
Arguments Rejected {A} reason.
Arguments Uncaught {A} e.

(** [this.submit()], with [handleResponse] the outcome of the exchange for
    the request sent. *)
Definition submit (this : loc) (handleResponse : request -> handled) (w : world)
  : promise loc * world :=
  match heap w !! this with
  | None => (Uncaught TypeError, w)
  | Some _this =>
      if truthy (this_prop _this "executed")
      then (Rejected (VStr "This order has already been executed!"), w)
      else
        let req := {| method := "POST";
                      uri := url _this ++ "/options/orders/";
                      authorization := "Bearer " ++ getAuthToken (user _this);
                      json := Some (this_prop _this "form") |} in
        let w := send req w in
        match handleResponse req with
        | Success res =>
            let w := store this "executed" (VBool true) w in
            match constructor (user _this) res w with
            | (Ok l, w) => (Resolved l, w)
            | (Throw e, w) => (Uncaught e, w)
            end
        | Failure err => (Rejected err, w)
        end
  end.

(** The loop of [getOrders]: [res.forEach(o => ...)] pushing onto
    [array]. *)
Fixpoint wrap_each (user : User) (res : list value) (array : list loc) : M (list loc) :=
  match res with
  | [] => mret array
  | o :: res' =>
      state ← lift (get_prop o "state");
      if negb (strict_eq state VUndefined)
      then l ← constructor user o; wrap_each user res' (array ++ [l])
      else wrap_each user res' array
  end.

(** The property [key] of the instance behind a reference. *)
Definition deref_prop (w : world) (key : string) (l : loc) : value :=
  match heap w !! l with
  | Some this => this_prop this key
  | None => VUndefined
  end.

(** [VerticalOptionOrder.getOrders(user)] *)
Definition getOrders (P : Platform) (user : User) (handleResponse : request -> handled)
  (w : world) : promise (list loc) * world :=
  let req := {| method := "GET";
                uri := "https://api.robinhood.com/options/orders/";
                authorization := "Bearer " ++ getAuthToken user;
                json := None |} in
  let w := send req w in
  match handleResponse req with
  | Success res =>
      match res with
      | VArr os =>
          match wrap_each user os [] w with
          | (Ok array, w) =>
              (Resolved (Lodash.sortBy P array (deref_prop w "created_at")), w)
          | (Throw e, w) => (Uncaught e, w)
          end
      | _ => (Uncaught TypeError, w)
      end
  | Failure err => (Rejected err, w)
  end.

(** ** Accessors *)

Section Accessors.
Context (P : Platform).

Definition getLegs (this : instance) : value := this_prop this "legs".
Definition getDirection (this : instance) : value := this_prop this "direction".
Definition getPremium (this : instance) : value := this_prop this "premium".
Definition getProcessedPremium (this : instance) : value := this_prop this "processed_premium".
Definition getTimeInForce (this : instance) : value := this_prop this "time_in_force".
Definition getReferenceID (this : instance) : value := this_prop this "ref_id".
Definition getPrice (this : instance) : value := VNum (ToNumber P (this_prop this "price")).
Definition getTrigger (this : instance) : value := this_prop this "trigger".
Definition getType (this : instance) : value := this_prop this "type".
Definition getQuantity (this : instance) : value := VNum (ToNumber P (this_prop this "quantity")).
Definition getQuantityPending (this : instance) : value :=
  VNum (ToNumber P (this_prop this "pending_quantity")).
Definition getQuantityCanceled (this : instance) : value :=
  VNum (ToNumber P (this_prop this "canceled_quantity")).
Definition getChainID (this : instance) : value := this_prop this "chain_id".
Definition getSymbol (this : instance) : value := this_prop this "chain_symbol".
Definition getDateCreated (this : instance) : Date := new_Date P (this_prop this "created_at").
Definition isExecuted (this : instance) : value := this_prop this "executed".
Definition isCredit (this : instance) : bool := strict_eq (this_prop this "direction") (VStr "credit").
Definition isDebit (this : instance) : bool := strict_eq (this_prop this "direction") (VStr "debit").

End Accessors.

(** ** Reading the constructor's two branches *)

(** The instance the constructor finishes for a new order whose reference
    identifier is [ref_id]. *)
Definition new_order (user : User) (object ref_id : value) : instance :=
  let this := set_prop "executed" (VBool false)
                {| url := Robinhood_url; user := user; own := ∅ |} in
  set_prop "form" (form_of this object ref_id) this.

(** The instance the constructor finishes for an existing order. *)
Definition existing_order (user : User) (object : value) : instance :=
  foldl (fun this key => set_prop key (prop object key) this)
    (set_prop "executed" (VBool true)
       {| url := Robinhood_url; user := user; own := ∅ |})
    copied_keys.

(** The world after allocating [this], [drawn] identifiers having been
    generated on the way. *)
Definition allocated (this : instance) (drawn : nat) (w : world) : world :=
  {| heap := heap w ++ [this]; network := network w;
     uuid_source := uuid_source w; uuid_drawn := drawn + uuid_drawn w |}.

(** The test [getOrders] applies to an entry of the listing. *)
Definition has_state (o : value) : bool :=
  negb (strict_eq (prop o "state") VUndefined).

(** The request [getOrders] sends. *)
Definition listing_request (user : User) : request :=
  {| method := "GET";
     uri := "https://api.robinhood.com/options/orders/";
     authorization := "Bearer " ++ getAuthToken user;
     json := None |}.

(** [a <= b] on dates: false when either is invalid. *)
Definition Date_le (a b : Date) : Prop :=
  match time_value a, time_value b with
  | Some x, Some y => (x <= y)%Z
  | _, _ => False
  end.

(** [getDateCreated()] of the instance behind a reference. *)
Definition deref_date (P : Platform) (w : world) (l : loc) : Date :=
  match heap w !! l with
  | Some this => getDateCreated P this
  | None => {| time_value := None |}
  end.

(** [created_at] of two instances in ascending code-unit order. *)
Definition created_at_le (a b : value) : Prop :=
  match a, b with
  | VStr x, VStr y => String.leb x y = true
  | _, _ => False
  end.

(** The request [submit] sends for the instance [_this]. *)
Definition submit_request (_this : instance) : request :=
  {| method := "POST";
     uri := url _this ++ "/options/orders/";
     authorization := "Bearer " ++ getAuthToken (user _this);
     json := Some (this_prop _this "form") |}.

(** The field set of an order: the copied properties, read back from the
    instance. *)
Definition field_set (this : instance) : value :=
  object_literal (List.map (fun key => (key, this_prop this key)) copied_keys).

(** The outputs of all accessors of an instance. *)
Record outputs : Type := {
  out_legs : value;
  out_direction : value;
  out_premium : value;
  out_processed_premium : value;
  out_time_in_force : value;
  out_reference_id : value;
  out_price : value;
  out_trigger : value;
  out_type : value;
  out_quantity : value;
  out_quantity_pending : value;
  out_quantity_canceled : value;
  out_chain_id : value;
  out_symbol : value;
  out_date_created : Date;
  out_executed : value;
  out_credit : bool;
  out_debit : bool
}.

Definition observe (P : Platform) (this : instance) : outputs :=
  {| out_legs := getLegs this;
     out_direction := getDirection this;
     out_premium := getPremium this;
     out_processed_premium := getProcessedPremium this;
     out_time_in_force := getTimeInForce this;
     out_reference_id := getReferenceID this;
     out_price := getPrice P this;
     out_trigger := getTrigger this;
     out_type := getType this;
     out_quantity := getQuantity P this;
     out_quantity_pending := getQuantityPending P this;
     out_quantity_canceled := getQuantityCanceled P this;
     out_chain_id := getChainID this;
     out_symbol := getSymbol this;
     out_date_created := getDateCreated P this;
     out_executed := isExecuted this;
     out_credit := isCredit this;
     out_debit := isDebit this |}.

(** One operation of the class on the world. *)
Inductive step (w w' : world) : Prop :=
| step_constructor user object r :
    constructor user object w = (r, w') -> step w w'
| step_submit this handleResponse r :
    submit this handleResponse w = (r, w') -> step w w'
| step_getOrders P user handleResponse r :
    getOrders P user handleResponse w = (r, w') -> step w w'.

(** [w'] continues [w]: the same generator, no identifier drawn twice,
    and every instance of [w] still there with the form it had. *)
Definition extends (w w' : world) : Prop :=
  uuid_source w' = uuid_source w
  /\ uuid_drawn w <= uuid_drawn w'
  /\ forall (l : loc) (this : instance),
       heap w !! l = Some this ->
       exists this', heap w' !! l = Some this'
                     /\ this_prop this' "form" = this_prop this "form".

(** The checks of the specification's validation table, in its words:
    an authenticated session; side buy or sell; type market or limit, but
    not a market buy; a numeric price; a time in force among gfd, gtc,
    ioc, opg in any letter case; two instrument references; a numeric
    quantity. *)
Definition valid_parameters (user : User) (object : value) : Prop :=
  isAuthenticated user = Some true
  /\ (prop object "side" = VStr "buy" \/ prop object "side" = VStr "sell")
  /\ (prop object "type" = VStr "market" \/ prop object "type" = VStr "limit")
  /\ ~ (prop object "side" = VStr "buy" /\ prop object "type" = VStr "market")
  /\ (exists x, prop object "price" = VNum x)
  /\ (exists s, prop object "timeInForce" = VStr s
                /\ In (lower_string s) ["gfd"; "gtc"; "ioc"; "opg"])
  /\ instanceof (prop object "longLeg") "OptionInstrument" = true
  /\ instanceof (prop object "shortLeg") "OptionInstrument" = true
  /\ (exists x, prop object "quantity" = VNum x).

(** ** Reading a whole history *)

(** [w'] holds every instance of [w], each one either as it was or, if it
    was pending, with its [executed] flag now set and nothing else
    changed. *)
Definition ages (w w' : world) : Prop :=
  forall (l : loc) (this : instance),
    heap w !! l = Some this ->
    exists this',
      heap w' !! l = Some this'
      /\ url this' = url this
      /\ user this' = user this
      /\ (forall key, key <> "executed" -> this_prop this' key = this_prop this key)
      /\ (this' = this
          \/ truthy (this_prop this "executed") = false
             /\ this_prop this' "executed" = VBool true).

(** What the accessors return on an order that holds the fields of the
    provider record [object]. *)
Definition record_outputs (P : Platform) (object : value) : outputs :=
  {| out_legs := prop object "legs";
     out_direction := prop object "direction";
     out_premium := prop object "premium";
     out_processed_premium := prop object "processed_premium";
     out_time_in_force := prop object "time_in_force";
     out_reference_id := prop object "ref_id";
     out_price := VNum (ToNumber P (prop object "price"));
     out_trigger := prop object "trigger";
     out_type := prop object "type";
     out_quantity := VNum (ToNumber P (prop object "quantity"));
     out_quantity_pending := VNum (ToNumber P (prop object "pending_quantity"));
     out_quantity_canceled := VNum (ToNumber P (prop object "canceled_quantity"));
     out_chain_id := prop object "chain_id";
     out_symbol := prop object "chain_symbol";
     out_date_created := new_Date P (prop object "created_at");
     out_executed := VBool true;
     out_credit := strict_eq (prop object "direction") (VStr "credit");
     out_debit := strict_eq (prop object "direction") (VStr "debit") |}.

(** Two references in the order [getOrders] leaves them in: by the code
    units of [created_at], and by reference, that is by position in the
    listing, when the two are the same string. *)
Definition created_at_then_position (w : world) (l1 l2 : loc) : Prop :=
  exists a b : string,
    deref_prop w "created_at" l1 = VStr a
    /\ deref_prop w "created_at" l2 = VStr b
    /\ (String.ltb a b = true \/ a = b /\ l1 <= l2).

(** A value that is [undefined] or [null]. *)
Definition nullish (v : value) : Prop := v = VUndefined \/ v = VNull.

End VerticalOptionOrder.

(* ===================================================================== *)
(** * Sample sessions, orders and responses *)
(* ===================================================================== *)

Module Samples.
Import JS VerticalOptionOrder.

Definition session : User :=
  {| isAuthenticated := Some true;
     getAccountNumber := "5QT00000";
     getAuthToken := "token" |}.

Definition instrument (id : string) : value :=
  VObj "OptionInstrument"
    {[ "instrumentURL" := VStr ("https://api.robinhood.com/options/instruments/" ++ id ++ "/") ]}.

Definition parameters (side type ref_id longLeg shortLeg : value) : value :=
  object_literal
    [("side", side); ("type", type); ("price", VNum 1.5%float);
     ("timeInForce", VStr "GTC"); ("longLeg", longLeg);
     ("shortLeg", shortLeg); ("quantity", VNum 3%float);
     ("ref_id", ref_id)].

Definition limit_buy : value :=
  parameters (VStr "buy") (VStr "limit") (VStr "abc")
    (instrument "long") (instrument "short").
Definition limit_sell : value :=
  parameters (VStr "sell") (VStr "limit") VUndefined
    (instrument "long") (instrument "short").
Definition market_buy : value :=
  parameters (VStr "buy") (VStr "market") (VStr "abc")
    (instrument "long") (instrument "short").
Definition bad_long_leg : value :=
  parameters (VStr "buy") (VStr "limit") (VStr "abc")
    (VStr "long") (instrument "short").
Definition bad_short_leg : value :=
  parameters (VStr "buy") (VStr "limit") (VStr "abc")
    (instrument "long") (VStr "short").

(** A generator that never repeats. *)
Definition counter_uuid (n : nat) : string := "00000000-0000-4000-8000-" ++ pretty n.

Definition empty_world : world :=
  {| heap := []; network := []; uuid_source := counter_uuid; uuid_drawn := 0 |}.

Definition filled (created_at : string) : value :=
  object_literal
    [("id", VStr "o-1"); ("state", VStr "filled"); ("direction", VStr "credit");
     ("price", VStr "1.50"); ("quantity", VStr "3"); ("time_in_force", VStr "gtc");
     ("ref_id", VStr "abc"); ("created_at", VStr created_at)].

Definition accepts (res : value) (req : request) : handled := Success res.

(** A platform that converts the two numerals of [filled] as every
    engine does, and knows no other string. *)
Definition numerals : Platform :=
  {| StringToNumber := fun s =>
       if String.eqb s "1.50" then 1.5%float
       else if String.eqb s "3" then 3%float
       else nan;
     NumberToString := fun _ => "NaN";
     DateParseOther := fun _ => None |}.

(** The world after [new VerticalOptionOrder(session, limit_buy)]: the
    order is at reference 0. *)
Definition pending_world : world := snd (constructor session limit_buy empty_world).

(** The world after building an order from a provider record. *)
Definition executed_world : world :=
  snd (constructor session (filled "2019-01-01T00:00:00Z") empty_world).

(** The worlds after a first order built without a reference identifier,
    after a second one with its own, and after a third one without. *)
Definition first_world : world := snd (constructor session limit_sell empty_world).
Definition second_world : world := snd (constructor session limit_buy first_world).
Definition third_world : world := snd (constructor session limit_sell second_world).

(** Two provider records whose timestamps differ in precision. *)
Definition listing : list value :=
  [filled "2019-01-01T00:00:00Z"; filled "2018-12-31T23:59:59.500Z";
   object_literal [("id", VStr "partial")];
   filled "2019-01-01T00:00:00.500Z"].

End Samples.

(* ===================================================================== *)
(** * Properties *)
(* ===================================================================== *)

Import JS Lodash VerticalOptionOrder Samples.

(** ** Values *)

Lemma strict_eq_undefined v : strict_eq v VUndefined = true <-> v = VUndefined.
Proof. destruct v; simpl; split; intros H; try discriminate; auto. Qed.

Lemma strict_eq_undefined_false v : strict_eq v VUndefined = false <-> v <> VUndefined.
Proof. destruct v; simpl; split; intros H; try discriminate; auto; now destruct H. Qed.

Lemma strict_eq_str v s : strict_eq v (VStr s) = true <-> v = VStr s.
Proof.
  destruct v; simpl; split; intros H; try discriminate.
  - apply String.eqb_eq in H. now subst.
  - injection H as ->. apply String.eqb_refl.
Qed.

Lemma prop_defined_get_prop object key :
  prop object key <> VUndefined -> forall k, get_prop object k = Ok (prop object k).
Proof. destruct object; simpl; intros H k; try reflexivity; now destruct H. Qed.

(** ** The constructor, branch by branch *)

Lemma constructor_existing user object w :
  prop object "state" <> VUndefined \/ prop object "cancel_url" <> VUndefined ->
  constructor user object w
  = (Ok (length (heap w)), allocated (existing_order user object) 0 w).
Proof.
  intros Hmark. unfold constructor, mbind, M_bind, lift.
  assert (Hget : get_prop object "state" = Ok (prop object "state")).
  { destruct Hmark as [H|H]; exact (prop_defined_get_prop _ _ H _). }
  rewrite Hget.
  assert (Hcond : strict_eq (prop object "state") VUndefined
                  && strict_eq (prop object "cancel_url") VUndefined = false).
  { apply andb_false_iff. destruct Hmark as [H|H]; [left|right];
      now apply strict_eq_undefined_false. }
  rewrite Hcond. reflexivity.
Qed.

Lemma constructor_new user object w :
  get_prop object "state" = Ok VUndefined ->
  prop object "cancel_url" = VUndefined ->
  constructor user object w =
  match _validate user object with
  | Throw e => (Throw e, w)
  | Ok _ =>
      if strict_eq (prop object "ref_id") VUndefined
      then (Ok (length (heap w)),
            allocated (new_order user object (VStr (uuid_source w (uuid_drawn w)))) 1 w)
      else (Ok (length (heap w)),
            allocated (new_order user object (prop object "ref_id")) 0 w)
  end.
Proof.
  intros Hget Hcancel. unfold constructor, mbind, M_bind, lift.
  rewrite Hget, Hcancel. simpl.
  destruct (_validate user object) as [[]|e]; [|reflexivity].
  destruct (strict_eq (prop object "ref_id") VUndefined); reflexivity.
Qed.

Lemma constructor_ok_get_prop user object w l w' :
  constructor user object w = (Ok l, w') ->
  get_prop object "state" = Ok (prop object "state").
Proof.
  unfold constructor, mbind, M_bind, lift.
  destruct object; simpl; try discriminate; reflexivity.
Qed.

(** What a successful construction of a new order did. *)
Lemma constructor_new_inv user object w l w' :
  constructor user object w = (Ok l, w') ->
  prop object "state" = VUndefined ->
  prop object "cancel_url" = VUndefined ->
  _validate user object = Ok tt
  /\ l = length (heap w)
  /\ exists ref_id drawn,
       w' = allocated (new_order user object ref_id) drawn w
       /\ (prop object "ref_id" = VUndefined /\ drawn = 1
           /\ ref_id = VStr (uuid_source w (uuid_drawn w))
           \/ prop object "ref_id" <> VUndefined /\ drawn = 0
              /\ ref_id = prop object "ref_id").
Proof.
  intros Hnew Hstate Hcancel.
  pose proof (constructor_ok_get_prop _ _ _ _ _ Hnew) as Hget.
  rewrite Hstate in Hget.
  rewrite (constructor_new _ _ _ Hget Hcancel) in Hnew.
  destruct (_validate user object) as [[]|e]; [|discriminate].
  split; [reflexivity|].
  destruct (strict_eq (prop object "ref_id") VUndefined) eqn:Href;
    injection Hnew as <- <-; (split; [reflexivity|]).
  - eexists _, 1. split; [reflexivity|]. left.
    apply strict_eq_undefined in Href. auto.
  - eexists _, 0. split; [reflexivity|]. right.
    apply strict_eq_undefined_false in Href. auto.
Qed.

(** Every successful construction, of either kind. *)
Lemma constructor_ok_inv user object w l w' :
  constructor user object w = (Ok l, w') ->
  l = length (heap w)
  /\ exists this drawn, w' = allocated this drawn w /\ user = VerticalOptionOrder.user this.
Proof.
  intros Hnew.
  destruct (strict_eq (prop object "state") VUndefined) eqn:Hstate.
  - destruct (strict_eq (prop object "cancel_url") VUndefined) eqn:Hcancel.
    + apply strict_eq_undefined in Hstate, Hcancel.
      destruct (constructor_new_inv _ _ _ _ _ Hnew Hstate Hcancel)
        as (_ & -> & ref_id & drawn & -> & _).
      split; [reflexivity|]. now exists (new_order user object ref_id), drawn.
    + apply strict_eq_undefined_false in Hcancel.
      rewrite constructor_existing in Hnew by auto. injection Hnew as <- <-.
      split; [reflexivity|]. now exists (existing_order user object), 0.
  - apply strict_eq_undefined_false in Hstate.
    rewrite constructor_existing in Hnew by auto. injection Hnew as <- <-.
    split; [reflexivity|]. now exists (existing_order user object), 0.
Qed.

Lemma validate_side user object :
  _validate user object = Ok tt ->
  prop object "side" = VStr "buy" \/ prop object "side" = VStr "sell".
Proof.
  unfold _validate.
  destruct (isAuthenticated user) as [[]|]; simpl; try discriminate.
  destruct (String.eqb (typeof (prop object "side")) "string"); simpl; try discriminate.
  destruct (strict_eq (prop object "side") (VStr "buy")) eqn:Hbuy.
  - intros _. left. now apply strict_eq_str.
  - destruct (strict_eq (prop object "side") (VStr "sell")) eqn:Hsell; simpl; try discriminate.
    intros _. right. now apply strict_eq_str.
Qed.

Lemma new_order_form user object ref_id :
  this_prop (new_order user object ref_id) "form"
  = form_of (set_prop "executed" (VBool false)
               {| url := Robinhood_url; user := user; own := ∅ |}) object ref_id.
Proof. reflexivity. Qed.

Lemma allocated_lookup this drawn w :
  heap (allocated this drawn w) !! length (heap w) = Some this.
Proof. simpl. rewrite lookup_app_r by lia. now rewrite Nat.sub_diag. Qed.

Lemma allocated_deref this drawn w key :
  deref_prop (allocated this drawn w) key (length (heap w)) = this_prop this key.
Proof. unfold deref_prop. now rewrite allocated_lookup. Qed.

(** ** submit *)

(** C1: [submit()] on an order whose [executed] flag is true rejects at
    once with the already-executed error; the world, and with it the list
    of network requests, is left as it was, whatever the provider would
    have answered. *)
Theorem submit_executed_rejects (w : world) (this : loc) (_this : instance)
    (handleResponse : request -> handled) :
  heap w !! this = Some _this ->
  isExecuted _this = VBool true ->
  submit this handleResponse w
  = (Rejected (VStr "This order has already been executed!"), w)
  /\ network (snd (submit this handleResponse w)) = network w.
Proof.
  intros Hthis Hexec. unfold submit, isExecuted in *.
  rewrite Hthis, Hexec. simpl. split; reflexivity.
Qed.

Lemma submit_executed_rejects_witness :
  submit 0 (accepts (filled "2019-01-02T00:00:00Z")) executed_world
  = (Rejected (VStr "This order has already been executed!"), executed_world)
  /\ network (snd (submit 0 (accepts (filled "2019-01-02T00:00:00Z")) executed_world))
     = network executed_world.
Proof.
  apply (submit_executed_rejects executed_world 0
           (existing_order session (filled "2019-01-01T00:00:00Z"))).
  - vm_compute. reflexivity.
  - vm_compute. reflexivity.
Defined.

Lemma store_heap l key v w this :
  heap w !! l = Some this ->
  heap (store l key v w) = <[l := set_prop key v this]> (heap w).
Proof. intros H. unfold store. simpl. now rewrite H. Qed.

(** C2, as the code has it: a successful [submit()] of a pending order
    resolves to a new reference, whose instance is built from the
    response (an existing order whenever the response carries [state] or
    [cancel_url]); it sends exactly one request; and in the original
    instance it sets [executed] to true and changes nothing else, the
    form payload included. *)
Theorem submit_success_effect (w w' : world) (this l : loc) (_this : instance)
    (handleResponse : request -> handled) :
  heap w !! this = Some _this ->
  isExecuted _this = VBool false ->
  submit this handleResponse w = (Resolved l, w') ->
  exists res new,
    handleResponse (submit_request _this) = Success res
    /\ l = length (heap w)
    /\ l <> this
    /\ heap w' = (<[this := set_prop "executed" (VBool true) _this]> (heap w) ++ [new])%list
    /\ network w' = (network w ++ [submit_request _this])%list
    /\ deref_prop w' "executed" this = VBool true
    /\ (forall key, key <> "executed" -> deref_prop w' key this = this_prop _this key)
    /\ (prop res "state" <> VUndefined \/ prop res "cancel_url" <> VUndefined ->
        new = existing_order (user _this) res /\ isExecuted new = VBool true).
Proof.
  intros Hthis Hexec Hsubmit. unfold submit in Hsubmit.
  unfold isExecuted in Hexec. rewrite Hthis, Hexec in Hsubmit. simpl in Hsubmit.
  change {| method := "POST"; uri := url _this ++ "/options/orders/";
            authorization := "Bearer " ++ getAuthToken (user _this);
            json := Some (this_prop _this "form") |}
    with (submit_request _this) in Hsubmit.
  destruct (handleResponse (submit_request _this)) as [res|err] eqn:Hres;
    [|discriminate].
  set (w1 := store this "executed" (VBool true) (send (submit_request _this) w)) in *.
  assert (Hheap1 : heap w1 = <[this := set_prop "executed" (VBool true) _this]> (heap w)).
  { unfold w1. now rewrite (store_heap _ _ _ _ _this). }
  assert (Hnet1 : network w1 = (network w ++ [submit_request _this])%list) by reflexivity.
  clearbody w1.
  assert (Hlt : this < length (heap w)) by (eapply lookup_lt_Some; eauto).
  destruct (constructor (user _this) res w1) as [[l1|e] w2] eqn:Hnew; [|discriminate].
  injection Hsubmit as -> ->.
  destruct (constructor_ok_inv _ _ _ _ _ Hnew) as (Hl & new & drawn & Hw' & _).
  assert (Hlen : length (heap w1) = length (heap w)).
  { rewrite Hheap1. apply length_insert. }
  rewrite Hlen in Hl.
  assert (Hheap' : heap w' = (<[this := set_prop "executed" (VBool true) _this]> (heap w) ++ [new])%list).
  { rewrite Hw'. simpl. now rewrite Hheap1. }
  assert (Hthis' : heap w' !! this = Some (set_prop "executed" (VBool true) _this)).
  { rewrite Hheap'. rewrite lookup_app_l by (rewrite length_insert; lia).
    now apply list_lookup_insert_eq. }
  exists res, new. repeat split.
  - exact Hl.
  - lia.
  - exact Hheap'.
  - rewrite Hw'. simpl. exact Hnet1.
  - unfold deref_prop. rewrite Hthis'. unfold this_prop, set_prop. simpl.
    now rewrite lookup_insert_eq.
  - intros key Hkey. unfold deref_prop. rewrite Hthis'.
    unfold this_prop, set_prop. simpl. now rewrite lookup_insert_ne by congruence.
  - rewrite (constructor_existing _ _ _ H) in Hnew. injection Hnew as _ Hw2.
    rewrite Hw' in Hw2. apply (f_equal heap) in Hw2. simpl in Hw2.
    apply app_inv_head in Hw2. congruence.
  - rewrite (constructor_existing _ _ _ H) in Hnew. injection Hnew as _ Hw2.
    rewrite Hw' in Hw2. apply (f_equal heap) in Hw2. simpl in Hw2.
    apply app_inv_head in Hw2. injection Hw2 as <-. reflexivity.
Qed.

Lemma submit_success_effect_witness :
  exists res new,
    accepts (filled "2019-01-02T00:00:00Z")
      (submit_request (new_order session limit_buy (VStr "abc"))) = Success res
    /\ 1 = length (heap pending_world)
    /\ 1 <> 0
    /\ heap (snd (submit 0 (accepts (filled "2019-01-02T00:00:00Z")) pending_world))
       = (<[0 := set_prop "executed" (VBool true) (new_order session limit_buy (VStr "abc"))]>
            (heap pending_world) ++ [new])%list
    /\ network (snd (submit 0 (accepts (filled "2019-01-02T00:00:00Z")) pending_world))
       = (network pending_world
          ++ [submit_request (new_order session limit_buy (VStr "abc"))])%list
    /\ deref_prop (snd (submit 0 (accepts (filled "2019-01-02T00:00:00Z")) pending_world))
         "executed" 0 = VBool true
    /\ (forall key, key <> "executed" ->
        deref_prop (snd (submit 0 (accepts (filled "2019-01-02T00:00:00Z")) pending_world))
          key 0
        = this_prop (new_order session limit_buy (VStr "abc")) key)
    /\ (prop res "state" <> VUndefined \/ prop res "cancel_url" <> VUndefined ->
        new = existing_order (user (new_order session limit_buy (VStr "abc"))) res
        /\ isExecuted new = VBool true).
Proof.
  apply (submit_success_effect pending_world _ 0 1
           (new_order session limit_buy (VStr "abc"))
           (accepts (filled "2019-01-02T00:00:00Z"))).
  - vm_compute. reflexivity.
  - vm_compute. reflexivity.
  - vm_compute. reflexivity.
Defined.

(** C2 as stated fails: after a successful [submit()] the original
    instance is not what it was, its [executed] flag having been set. *)
Lemma submit_mutates_original :
  ~ (forall (w w' : world) (this l : loc) (_this : instance)
            (handleResponse : request -> handled),
        heap w !! this = Some _this ->
        isExecuted _this = VBool false ->
        submit this handleResponse w = (Resolved l, w') ->
        heap w' !! this = Some _this).
Proof.
  intros H.
  specialize (H pending_world
                (snd (submit 0 (accepts (filled "2019-01-02T00:00:00Z")) pending_world))
                0 1 (new_order session limit_buy (VStr "abc"))
                (accepts (filled "2019-01-02T00:00:00Z"))).
  assert (Hflag := f_equal (option_map isExecuted)
                     (H ltac:(vm_compute; reflexivity) ltac:(vm_compute; reflexivity)
                        ltac:(vm_compute; reflexivity))).
  vm_compute in Hflag. discriminate.
Qed.

(** ** Validation *)

Lemma assert_ok c e : assert c e = Ok tt <-> c = true.
Proof. destruct c; simpl; split; intros H; try reflexivity; discriminate. Qed.

Lemma assert_bind_ok c e (f : unit -> result unit) :
  mbind f (assert c e) = Ok tt <-> c = true /\ f tt = Ok tt.
Proof.
  destruct c; simpl; split.
  - auto.
  - intros [_ H]; exact H.
  - discriminate.
  - intros [H _]; discriminate.
Qed.

Lemma typeof_string v : String.eqb (typeof v) "string" = true <-> exists s, v = VStr s.
Proof.
  split.
  - destruct v; intros H; try (vm_compute in H; discriminate). eauto.
  - intros [s ->]. reflexivity.
Qed.

Lemma typeof_number v : String.eqb (typeof v) "number" = true <-> exists x, v = VNum x.
Proof.
  split.
  - destruct v; intros H; try (vm_compute in H; discriminate). eauto.
  - intros [x ->]. reflexivity.
Qed.

Lemma indexOf_from_found i array s :
  (0 <= i)%Z ->
  (indexOf_from i array (VStr s) =? -1)%Z = false <-> In s array.
Proof.
  revert i. induction array as [|y array IH]; intros i Hi; simpl.
  - split; [discriminate|contradiction].
  - destruct (String.eqb y s) eqn:Heq.
    + apply String.eqb_eq in Heq. split; [auto|]. intros _. apply Z.eqb_neq. lia.
    + apply String.eqb_neq in Heq. rewrite IH by lia. split; [auto|].
      intros [H|H]; [contradiction|exact H].
Qed.

(** [_validate] passes exactly the parameter sets the validation table
    admits. *)
Lemma validate_iff_valid_parameters (user : User) (object : value) :
  _validate user object = Ok tt <-> valid_parameters user object.
Proof.
  unfold _validate, valid_parameters.
  repeat (rewrite assert_bind_ok; cbv beta).
  rewrite !typeof_string, !typeof_number, !orb_true_iff, negb_true_iff, andb_false_iff,
    !strict_eq_str.
  destruct (prop object "timeInForce") as [| | | |tif| |] eqn:Htif;
    try (split; [intros (_ & _ & _ & _ & _ & _ & _ & [s Hs] & _); discriminate
                |intros (_ & _ & _ & _ & _ & (s & Hs & _) & _); discriminate]).
  cbn [toLowerCase mbind result_bind].
  repeat (rewrite assert_bind_ok; cbv beta).
  rewrite assert_ok, typeof_number, negb_true_iff.
  unfold indexOf. rewrite indexOf_from_found by lia.
  rewrite <- !not_true_iff_false, !strict_eq_str.
  split.
  - intros (Hauth & _ & Hside & _ & Htype & Hcombo & Hprice & _ & Hin & Hlong & Hshort & Hq).
    repeat split; auto.
    + destruct (isAuthenticated user) as [[]|]; try discriminate; reflexivity.
    + tauto.
    + exists tif. auto.
  - intros (Hauth & Hside & Htype & Hcombo & Hprice & (s & Hs & Hin) & Hlong & Hshort & Hq).
    injection Hs as <-. rewrite Hauth.
    repeat split; auto.
    + destruct Hside as [->| ->]; eauto.
    + destruct Htype as [->| ->]; eauto.
    + destruct Hside as [Hs|Hs];
        [right; intros Ht; apply Hcombo; auto|left; rewrite Hs; discriminate].
    + eauto.
Qed.

(** With an authenticated session, a refusal by [_validate] is always
    one of its own errors, never a [TypeError]. *)
Lemma validate_throws_Error user object e :
  isAuthenticated user = Some true ->
  _validate user object = Throw e -> exists message, e = Error message.
Proof.
  intros Hauth. unfold _validate. rewrite Hauth. cbn [assert mbind result_bind].
  repeat match goal with
  | |- context [assert ?c ?err] =>
      destruct c eqn:?; cbn [assert mbind result_bind]; [|intros [= <-]; eauto]
  end.
  match goal with H : String.eqb (typeof (prop object "timeInForce")) _ = true |- _ =>
    apply typeof_string in H as [tif ->] end.
  cbn [toLowerCase mbind result_bind].
  repeat match goal with
  | |- context [assert ?c ?err] =>
      destruct c eqn:?; cbn [assert mbind result_bind]; [|intros [= <-]; eauto]
  end.
  discriminate.
Qed.

(** ** Construction of a new order *)

(** C4: a parameter set with side "buy" and type "market" never
    constructs a new order, whatever the session and the other fields are;
    the world is left as it was. *)
Theorem buy_market_rejected (user : User) (object : value) (w : world) :
  prop object "state" = VUndefined ->
  prop object "cancel_url" = VUndefined ->
  prop object "side" = VStr "buy" ->
  prop object "type" = VStr "market" ->
  exists e, constructor user object w = (Throw e, w).
Proof.
  intros Hstate Hcancel Hside Htype.
  unfold constructor, mbind, M_bind, lift.
  rewrite (prop_defined_get_prop object "side") by (rewrite Hside; discriminate).
  rewrite Hstate, Hcancel. simpl.
  unfold _validate. rewrite Hside, Htype.
  destruct (isAuthenticated user) as [[]|]; simpl; eauto.
Qed.

Lemma buy_market_rejected_witness :
  exists e, constructor session market_buy empty_world = (Throw e, empty_world).
Proof.
  apply (buy_market_rejected session market_buy empty_world); vm_compute; reflexivity.
Defined.

(** C3, at the failing input: a parameter set whose only defect is its
    [longLeg] is refused with a message that names 'optionInstrument', a
    property the parameter set does not have, and nowhere [longLeg]; a
    defective [shortLeg] gets the very same message. *)
Theorem invalid_leg_error_names_optionInstrument :
  constructor session bad_long_leg empty_world
  = (Throw (Error "Object property 'optionInstrument' must be an instance of the OptionInstrument class"),
     empty_world)
  /\ constructor session bad_short_leg empty_world
     = constructor session bad_long_leg empty_world
  /\ String.index 0 "longLeg"
       "Object property 'optionInstrument' must be an instance of the OptionInstrument class"
     = None
  /\ String.index 0 "shortLeg"
       "Object property 'optionInstrument' must be an instance of the OptionInstrument class"
     = None.
Proof. repeat split; vm_compute; reflexivity. Qed.

(** C5, as the code has it: in the payload of every new order the leg
    that points at [longLeg]'s instrument buys and the leg that points at
    [shortLeg]'s instrument sells, both legs carry the same position
    effect, and direction and effect follow the side: "debit" and "close"
    for a buy, "credit" and "open" for a sell. *)
Theorem legs_share_position_effect (user : User) (object : value) (w w' : world) (l : loc) :
  constructor user object w = (Ok l, w') ->
  prop object "state" = VUndefined ->
  prop object "cancel_url" = VUndefined ->
  exists leg1 leg2 effect direction,
    prop (deref_prop w' "form" l) "legs" = VArr [leg1; leg2]
    /\ prop (deref_prop w' "form" l) "direction" = VStr direction
    /\ prop leg1 "option" = prop (prop object "longLeg") "instrumentURL"
    /\ prop leg2 "option" = prop (prop object "shortLeg") "instrumentURL"
    /\ prop leg1 "side" = VStr "buy"
    /\ prop leg2 "side" = VStr "sell"
    /\ prop leg1 "position_effect" = VStr effect
    /\ prop leg2 "position_effect" = VStr effect
    /\ (prop object "side" = VStr "buy" /\ direction = "debit" /\ effect = "close"
        \/ prop object "side" = VStr "sell" /\ direction = "credit" /\ effect = "open").
Proof.
  intros Hnew Hstate Hcancel.
  destruct (constructor_new_inv _ _ _ _ _ Hnew Hstate Hcancel)
    as (Hvalid & -> & ref_id & drawn & -> & _).
  rewrite allocated_deref, new_order_form.
  destruct (validate_side _ _ Hvalid) as [Hside|Hside].
  - do 2 eexists. exists "close", "debit". unfold form_of. rewrite Hside.
    repeat split; try reflexivity. left; auto.
  - do 2 eexists. exists "open", "credit". unfold form_of. rewrite Hside.
    repeat split; try reflexivity. right; auto.
Qed.

Lemma legs_share_position_effect_witness :
  exists leg1 leg2 effect direction,
    prop (deref_prop pending_world "form" 0) "legs" = VArr [leg1; leg2]
    /\ prop (deref_prop pending_world "form" 0) "direction" = VStr direction
    /\ prop leg1 "option" = prop (prop limit_buy "longLeg") "instrumentURL"
    /\ prop leg2 "option" = prop (prop limit_buy "shortLeg") "instrumentURL"
    /\ prop leg1 "side" = VStr "buy"
    /\ prop leg2 "side" = VStr "sell"
    /\ prop leg1 "position_effect" = VStr effect
    /\ prop leg2 "position_effect" = VStr effect
    /\ (prop limit_buy "side" = VStr "buy" /\ direction = "debit" /\ effect = "close"
        \/ prop limit_buy "side" = VStr "sell" /\ direction = "credit" /\ effect = "open").
Proof.
  apply (legs_share_position_effect session limit_buy empty_world pending_world 0);
    vm_compute; reflexivity.
Defined.

(** C5 as stated fails: the two legs of a new order do not carry opposite
    position effects. *)
Lemma legs_position_effects_not_opposite :
  ~ (forall (user : User) (object : value) (w w' : world) (l : loc) (leg1 leg2 : value),
        constructor user object w = (Ok l, w') ->
        prop object "state" = VUndefined ->
        prop object "cancel_url" = VUndefined ->
        prop (deref_prop w' "form" l) "legs" = VArr [leg1; leg2] ->
        prop leg1 "position_effect" <> prop leg2 "position_effect").
Proof.
  intros H.
  apply (H session limit_buy empty_world pending_world 0
           (object_literal
              [("position_effect", VStr "close"); ("side", VStr "buy");
               ("ratio_quantity", VNum 1%float);
               ("option", VStr "https://api.robinhood.com/options/instruments/long/")])
           (object_literal
              [("position_effect", VStr "close"); ("side", VStr "sell");
               ("ratio_quantity", VNum 1%float);
               ("option", VStr "https://api.robinhood.com/options/instruments/short/")]));
    vm_compute; reflexivity.
Qed.

(** ** Accessors *)

Lemma form_direction_debit this object ref_id :
  prop (form_of this object ref_id) "direction" = VStr "debit"
  <-> strict_eq (prop object "side") (VStr "buy") = true.
Proof.
  unfold form_of. destruct (strict_eq (prop object "side") (VStr "buy")).
  - split; reflexivity.
  - split; intros H; vm_compute in H; discriminate.
Qed.

Lemma form_direction_credit this object ref_id :
  prop (form_of this object ref_id) "direction" = VStr "credit"
  <-> strict_eq (prop object "side") (VStr "buy") = false.
Proof.
  unfold form_of. destruct (strict_eq (prop object "side") (VStr "buy")).
  - split; intros H; vm_compute in H; discriminate.
  - split; reflexivity.
Qed.

(** C7, as the code has it: the payload of every new order has direction
    "debit" exactly when the side is "buy" and "credit" exactly when it is
    "sell"; [isDebit()] and [isCredit()] test the instance's own
    [direction] property, the one [getDirection()] returns, which a new
    order does not have: on it both return false. *)
Theorem direction_follows_side (user : User) (object : value) (w w' : world) (l : loc) :
  constructor user object w = (Ok l, w') ->
  prop object "state" = VUndefined ->
  prop object "cancel_url" = VUndefined ->
  exists this,
    heap w' !! l = Some this
    /\ (prop (this_prop this "form") "direction" = VStr "debit"
        <-> prop object "side" = VStr "buy")
    /\ (prop (this_prop this "form") "direction" = VStr "credit"
        <-> prop object "side" = VStr "sell")
    /\ getDirection this = VUndefined
    /\ isDebit this = false
    /\ isCredit this = false
    /\ forall any : instance,
         (isDebit any = true <-> getDirection any = VStr "debit")
         /\ (isCredit any = true <-> getDirection any = VStr "credit").
Proof.
  intros Hnew Hstate Hcancel.
  destruct (constructor_new_inv _ _ _ _ _ Hnew Hstate Hcancel)
    as (Hvalid & -> & ref_id & drawn & -> & _).
  exists (new_order user object ref_id).
  split; [apply allocated_lookup|].
  rewrite new_order_form, form_direction_debit, form_direction_credit.
  repeat split; try reflexivity.
  - apply strict_eq_str.
  - apply strict_eq_str.
  - intros Hbuy. destruct (validate_side _ _ Hvalid) as [Hside|Hside]; [|exact Hside].
    apply strict_eq_str in Hside. congruence.
  - intros Hside. rewrite Hside. reflexivity.
  - apply strict_eq_str.
  - apply strict_eq_str.
  - apply strict_eq_str.
  - apply strict_eq_str.
Qed.

Lemma direction_follows_side_witness :
  exists this,
    heap pending_world !! 0 = Some this
    /\ (prop (this_prop this "form") "direction" = VStr "debit"
        <-> prop limit_buy "side" = VStr "buy")
    /\ (prop (this_prop this "form") "direction" = VStr "credit"
        <-> prop limit_buy "side" = VStr "sell")
    /\ getDirection this = VUndefined
    /\ isDebit this = false
    /\ isCredit this = false
    /\ forall any : instance,
         (isDebit any = true <-> getDirection any = VStr "debit")
         /\ (isCredit any = true <-> getDirection any = VStr "credit").
Proof.
  apply (direction_follows_side session limit_buy empty_world pending_world 0);
    vm_compute; reflexivity.
Defined.

(** C7 as stated fails: an order built with side "buy" has a "debit"
    payload, and yet [isDebit()] does not return true on it. *)
Lemma isDebit_false_on_new_buy_order :
  ~ (forall (user : User) (object : value) (w w' : world) (l : loc) (this : instance),
        constructor user object w = (Ok l, w') ->
        heap w' !! l = Some this ->
        prop object "side" = VStr "buy" ->
        isDebit this = true).
Proof.
  intros H.
  assert (Hdebit := H session limit_buy empty_world pending_world 0
                      (new_order session limit_buy (VStr "abc"))
                      ltac:(vm_compute; reflexivity) ltac:(vm_compute; reflexivity)
                      ltac:(vm_compute; reflexivity)).
  vm_compute in Hdebit. discriminate.
Qed.

(** C10, as the code has it: on every new (pending) order the accessors
    that return a property give [undefined], the numeric ones (price,
    quantity, pending and canceled quantity) give NaN, the creation date is
    an invalid date, [isExecuted()] is false and so are [isCredit()] and
    [isDebit()]; no accessor fails or touches the world. *)
Theorem accessors_on_pending (P : Platform) (user : User) (object : value)
    (w w' : world) (l : loc) :
  constructor user object w = (Ok l, w') ->
  prop object "state" = VUndefined ->
  prop object "cancel_url" = VUndefined ->
  exists this,
    heap w' !! l = Some this
    /\ observe P this
       = {| out_legs := VUndefined;
            out_direction := VUndefined;
            out_premium := VUndefined;
            out_processed_premium := VUndefined;
            out_time_in_force := VUndefined;
            out_reference_id := VUndefined;
            out_price := VNum nan;
            out_trigger := VUndefined;
            out_type := VUndefined;
            out_quantity := VNum nan;
            out_quantity_pending := VNum nan;
            out_quantity_canceled := VNum nan;
            out_chain_id := VUndefined;
            out_symbol := VUndefined;
            out_date_created := {| time_value := None |};
            out_executed := VBool false;
            out_credit := false;
            out_debit := false |}.
Proof.
  intros Hnew Hstate Hcancel.
  destruct (constructor_new_inv _ _ _ _ _ Hnew Hstate Hcancel)
    as (Hvalid & -> & ref_id & drawn & -> & _).
  exists (new_order user object ref_id).
  split; [apply allocated_lookup|]. reflexivity.
Qed.

Lemma accessors_on_pending_witness :
  exists this,
    heap pending_world !! 0 = Some this
    /\ observe {| StringToNumber := fun _ => nan;
                  NumberToString := fun _ => "NaN";
                  DateParseOther := fun _ => None |} this
       = {| out_legs := VUndefined;
            out_direction := VUndefined;
            out_premium := VUndefined;
            out_processed_premium := VUndefined;
            out_time_in_force := VUndefined;
            out_reference_id := VUndefined;
            out_price := VNum nan;
            out_trigger := VUndefined;
            out_type := VUndefined;
            out_quantity := VNum nan;
            out_quantity_pending := VNum nan;
            out_quantity_canceled := VNum nan;
            out_chain_id := VUndefined;
            out_symbol := VUndefined;
            out_date_created := {| time_value := None |};
            out_executed := VBool false;
            out_credit := false;
            out_debit := false |}.
Proof.
  apply (accessors_on_pending _ session limit_buy empty_world pending_world 0);
    vm_compute; reflexivity.
Defined.

(** C10 as stated fails: on a pending order [getPrice()] returns NaN,
    which is neither [undefined] nor an empty value, on every platform. *)
Lemma getPrice_on_pending_is_NaN :
  ~ (exists (P : Platform) (this : instance),
        constructor session limit_buy empty_world = (Ok 0, pending_world)
        /\ heap pending_world !! 0 = Some this
        /\ (getPrice P this = VUndefined \/ getPrice P this = VNull
            \/ getPrice P this = VStr "" \/ getPrice P this = VArr [])).
Proof.
  intros (P & this & _ & Hthis & Hprice).
  vm_compute in Hthis. injection Hthis as <-.
  vm_compute in Hprice.
  destruct Hprice as [H|[H|[H|H]]]; discriminate.
Qed.

(** ** Existing orders *)

Lemma existing_order_field_set user user2 object :
  own (existing_order user2 (field_set (existing_order user object)))
  = own (existing_order user object).
Proof. vm_compute. reflexivity. Qed.

Lemma existing_order_state user object :
  this_prop (existing_order user object) "state" = prop object "state".
Proof. reflexivity. Qed.

Lemma existing_order_cancel_url user object :
  this_prop (existing_order user object) "cancel_url" = prop object "cancel_url".
Proof. reflexivity. Qed.

Lemma field_set_state this : prop (field_set this) "state" = this_prop this "state".
Proof. reflexivity. Qed.

Lemma field_set_cancel_url this :
  prop (field_set this) "cancel_url" = this_prop this "cancel_url".
Proof. reflexivity. Qed.

Lemma observe_own P this this2 : own this2 = own this -> observe P this2 = observe P this.
Proof.
  intros Hown. unfold observe, getLegs, getDirection, getPremium, getProcessedPremium,
    getTimeInForce, getReferenceID, getPrice, getTrigger, getType, getQuantity,
    getQuantityPending, getQuantityCanceled, getChainID, getSymbol, getDateCreated,
    isExecuted, isCredit, isDebit, this_prop.
  now rewrite Hown.
Qed.

(** C9: for an order built from a provider record (one with [state] or
    [cancel_url]), building an order again from the first one's own field
    set succeeds, in any world and for any session, and every accessor
    returns on the second what it returns on the first. *)
Theorem executed_round_trip (P : Platform) (user : User) (object : value)
    (w w' : world) (l : loc) :
  constructor user object w = (Ok l, w') ->
  prop object "state" <> VUndefined \/ prop object "cancel_url" <> VUndefined ->
  exists this,
    heap w' !! l = Some this
    /\ isExecuted this = VBool true
    /\ forall (user2 : User) (w2 : world),
         exists this2,
           constructor user2 (field_set this) w2
           = (Ok (length (heap w2)), allocated this2 0 w2)
           /\ observe P this2 = observe P this.
Proof.
  intros Hnew Hmark.
  rewrite (constructor_existing _ _ _ Hmark) in Hnew. injection Hnew as <- <-.
  exists (existing_order user object).
  split; [apply allocated_lookup|]. split; [reflexivity|].
  intros user2 w2.
  exists (existing_order user2 (field_set (existing_order user object))).
  split.
  - apply constructor_existing.
    rewrite field_set_state, field_set_cancel_url,
      existing_order_state, existing_order_cancel_url.
    exact Hmark.
  - apply observe_own, existing_order_field_set.
Qed.

Lemma executed_round_trip_witness :
  exists this,
    heap executed_world !! 0 = Some this
    /\ isExecuted this = VBool true
    /\ forall (user2 : User) (w2 : world),
         exists this2,
           constructor user2 (field_set this) w2
           = (Ok (length (heap w2)), allocated this2 0 w2)
           /\ observe {| StringToNumber := fun _ => nan;
                         NumberToString := fun _ => "NaN";
                         DateParseOther := fun _ => None |} this2
              = observe {| StringToNumber := fun _ => nan;
                           NumberToString := fun _ => "NaN";
                           DateParseOther := fun _ => None |} this.
Proof.
  apply (executed_round_trip _ session (filled "2019-01-01T00:00:00Z")
           empty_world executed_world 0).
  - vm_compute. reflexivity.
  - left. vm_compute. discriminate.
Defined.

(** ** Worlds only grow *)

Lemma extends_refl w : extends w w.
Proof. repeat split; [lia|]. intros l this H. now exists this. Qed.

Lemma extends_trans w1 w2 w3 : extends w1 w2 -> extends w2 w3 -> extends w1 w3.
Proof.
  intros (Hs1 & Hd1 & Hh1) (Hs2 & Hd2 & Hh2). repeat split.
  - congruence.
  - lia.
  - intros l this H. destruct (Hh1 _ _ H) as (this' & H' & Hform').
    destruct (Hh2 _ _ H') as (this'' & H'' & Hform'').
    exists this''. split; [exact H''|]. now rewrite Hform''.
Qed.

Lemma allocated_extends this drawn w : extends w (allocated this drawn w).
Proof.
  repeat split; simpl; [lia|].
  intros l old H. exists old. split; [|reflexivity].
  rewrite lookup_app_l; [exact H|]. eapply lookup_lt_Some; eauto.
Qed.

Lemma send_extends req w : extends w (send req w).
Proof. repeat split; simpl; [lia|]. intros l this H. now exists this. Qed.

Lemma store_executed_extends l v w : extends w (store l "executed" v w).
Proof.
  repeat split; simpl; [lia|].
  intros l' this H. destruct (heap w !! l) as [old|] eqn:Hold.
  - destruct (decide (l = l')) as [<-|Hne].
    + exists (set_prop "executed" v old). split.
      * apply list_lookup_insert_eq. eapply lookup_lt_Some; eauto.
      * rewrite Hold in H. injection H as <-.
        unfold this_prop, set_prop. simpl. now rewrite lookup_insert_ne.
    + exists this. split; [|reflexivity]. now rewrite list_lookup_insert_ne.
  - now exists this.
Qed.

(** The constructor either throws and leaves the world alone, or
    allocates one instance. *)
Lemma constructor_cases user object w :
  (exists e, constructor user object w = (Throw e, w))
  \/ exists this drawn,
       constructor user object w = (Ok (length (heap w)), allocated this drawn w).
Proof.
  destruct (get_prop object "state") as [state|e] eqn:Hget.
  - assert (Hstate : state = prop object "state").
    { destruct object; simpl in *; congruence. }
    subst state.
    destruct (strict_eq (prop object "state") VUndefined) eqn:Hs;
      [destruct (strict_eq (prop object "cancel_url") VUndefined) eqn:Hc|].
    + apply strict_eq_undefined in Hs, Hc. rewrite Hs in Hget.
      rewrite (constructor_new _ _ _ Hget Hc).
      destruct (_validate user object) as [[]|e]; [|left; eauto].
      destruct (strict_eq (prop object "ref_id") VUndefined); right; eauto.
    + apply strict_eq_undefined_false in Hc.
      rewrite constructor_existing by auto. right; eauto.
    + apply strict_eq_undefined_false in Hs.
      rewrite constructor_existing by auto. right; eauto.
  - left. exists e. unfold constructor, mbind, M_bind, lift. now rewrite Hget.
Qed.

Lemma constructor_extends user object w r w' :
  constructor user object w = (r, w') -> extends w w'.
Proof.
  intros H. destruct (constructor_cases user object w) as [(e & He)|(this & drawn & Hok)].
  - rewrite He in H. injection H as _ <-. apply extends_refl.
  - rewrite Hok in H. injection H as _ <-. apply allocated_extends.
Qed.

Lemma wrap_each_extends user res array w r w' :
  wrap_each user res array w = (r, w') -> extends w w'.
Proof.
  revert array w. induction res as [|o res IH]; intros array w H; simpl in H.
  - injection H as _ <-. apply extends_refl.
  - unfold mbind, M_bind, lift in H.
    destruct (get_prop o "state") as [state|e]; [|injection H as _ <-; apply extends_refl].
    destruct (negb (strict_eq state VUndefined)).
    + destruct (constructor user o w) as [[l|e] w1] eqn:Hnew.
      * eapply extends_trans; [eapply constructor_extends; eauto|eauto].
      * injection H as _ <-. eapply constructor_extends; eauto.
    + eauto.
Qed.

Lemma submit_extends this handleResponse w r w' :
  submit this handleResponse w = (r, w') -> extends w w'.
Proof.
  unfold submit. destruct (heap w !! this) as [_this|];
    [|intros H; injection H as _ <-; apply extends_refl].
  destruct (truthy (this_prop _this "executed"));
    [intros H; injection H as _ <-; apply extends_refl|].
  match goal with |- context [handleResponse ?req] => set (request := req) end.
  destruct (handleResponse request) as [res|err].
  - destruct (constructor _ _ _) as [[l|e] w2] eqn:Hnew; intros H; injection H as _ <-;
      (eapply extends_trans; [apply send_extends|];
       eapply extends_trans; [apply store_executed_extends|];
       eapply constructor_extends; eauto).
  - intros H; injection H as _ <-. apply send_extends.
Qed.

Lemma getOrders_extends P user handleResponse w r w' :
  getOrders P user handleResponse w = (r, w') -> extends w w'.
Proof.
  unfold getOrders.
  match goal with |- context [handleResponse ?req] => set (request := req) end.
  destruct (handleResponse request) as [res|err];
    [|intros H; injection H as _ <-; apply send_extends].
  destruct res; try (intros H; injection H as _ <-; apply send_extends).
  destruct (wrap_each _ _ _ _) as [[array|e] w2] eqn:Hwrap; intros H; injection H as _ <-;
    (eapply extends_trans; [apply send_extends|]; eapply wrap_each_extends; eauto).
Qed.

Lemma step_extends w w' : step w w' -> extends w w'.
Proof.
  intros [user object r H|this handleResponse r H|P user handleResponse r H].
  - eapply constructor_extends; eauto.
  - eapply submit_extends; eauto.
  - eapply getOrders_extends; eauto.
Qed.

Lemma steps_extend w w' : rtc step w w' -> extends w w'.
Proof.
  induction 1 as [w|w1 w2 w3 Hstep _ IH].
  - apply extends_refl.
  - eapply extends_trans; [apply step_extends|]; eauto.
Qed.

Lemma form_ref_id this object ref_id :
  prop (form_of this object ref_id) "ref_id" = ref_id.
Proof. reflexivity. Qed.

Lemma append_inj_r (p a b : string) : p ++ a = p ++ b -> a = b.
Proof. induction p as [|c p IH]; simpl; intros H; [exact H|]. injection H as H. auto. Qed.

Lemma counter_uuid_inj m n : counter_uuid m = counter_uuid n -> m = n.
Proof.
  unfold counter_uuid. intros H. apply append_inj_r in H.
  exact (pretty_nat_inj _ _ H).
Qed.

(** C6: of two new orders built one after the other, with any operations
    of the class in between, each carries in its payload the reference
    identifier its parameter set supplied; and when neither supplied one,
    the two payloads carry different identifiers, the generator being one
    that never repeats. *)
Theorem reference_id_supplied_or_fresh (u1 u2 : User) (o1 o2 : value)
    (w1 w2 w3 w4 : world) (l1 l2 : loc) :
  (forall m n : nat, uuid_source w1 m = uuid_source w1 n -> m = n) ->
  constructor u1 o1 w1 = (Ok l1, w2) ->
  prop o1 "state" = VUndefined ->
  prop o1 "cancel_url" = VUndefined ->
  rtc step w2 w3 ->
  constructor u2 o2 w3 = (Ok l2, w4) ->
  prop o2 "state" = VUndefined ->
  prop o2 "cancel_url" = VUndefined ->
  (prop o1 "ref_id" <> VUndefined ->
   prop (deref_prop w4 "form" l1) "ref_id" = prop o1 "ref_id")
  /\ (prop o2 "ref_id" <> VUndefined ->
      prop (deref_prop w4 "form" l2) "ref_id" = prop o2 "ref_id")
  /\ (prop o1 "ref_id" = VUndefined ->
      prop o2 "ref_id" = VUndefined ->
      prop (deref_prop w4 "form" l1) "ref_id" <> prop (deref_prop w4 "form" l2) "ref_id").
Proof.
  intros Hinj Hnew1 Hs1 Hc1 Hsteps Hnew2 Hs2 Hc2.
  destruct (constructor_new_inv _ _ _ _ _ Hnew1 Hs1 Hc1)
    as (_ & -> & ref1 & drawn1 & -> & Href1).
  destruct (constructor_new_inv _ _ _ _ _ Hnew2 Hs2 Hc2)
    as (_ & -> & ref2 & drawn2 & -> & Href2).
  pose proof (steps_extend _ _ Hsteps) as Hext.
  pose proof (extends_trans _ _ _ Hext (allocated_extends (new_order u2 o2 ref2) drawn2 w3))
    as (_ & _ & Hheap).
  destruct (Hheap _ _ (allocated_lookup (new_order u1 o1 ref1) drawn1 w1))
    as (this1 & Hthis1 & Hform1).
  assert (H1 : prop (deref_prop (allocated (new_order u2 o2 ref2) drawn2 w3) "form"
                       (length (heap w1))) "ref_id" = ref1).
  { unfold deref_prop. rewrite Hthis1, Hform1, new_order_form. apply form_ref_id. }
  assert (H2 : prop (deref_prop (allocated (new_order u2 o2 ref2) drawn2 w3) "form"
                       (length (heap w3))) "ref_id" = ref2).
  { rewrite allocated_deref, new_order_form. apply form_ref_id. }
  rewrite H1, H2. repeat split.
  - intros Hsup. destruct Href1 as [(Hno & _)|(_ & _ & ->)]; [contradiction|reflexivity].
  - intros Hsup. destruct Href2 as [(Hno & _)|(_ & _ & ->)]; [contradiction|reflexivity].
  - intros Hno1 Hno2.
    destruct Href1 as [(_ & -> & ->)|(Hsup & _)]; [|contradiction].
    destruct Href2 as [(_ & _ & ->)|(Hsup & _)]; [|contradiction].
    destruct Hext as (Hsrc & Hdrawn & _). simpl in Hsrc, Hdrawn.
    rewrite Hsrc. intros Heq. injection Heq as Heq.
    apply Hinj in Heq. lia.
Qed.

Lemma reference_id_supplied_or_fresh_witness :
  (prop limit_sell "ref_id" <> VUndefined ->
   prop (deref_prop third_world "form" 0) "ref_id" = prop limit_sell "ref_id")
  /\ (prop limit_sell "ref_id" <> VUndefined ->
      prop (deref_prop third_world "form" 2) "ref_id" = prop limit_sell "ref_id")
  /\ (prop limit_sell "ref_id" = VUndefined ->
      prop limit_sell "ref_id" = VUndefined ->
      prop (deref_prop third_world "form" 0) "ref_id"
      <> prop (deref_prop third_world "form" 2) "ref_id").
Proof.
  apply (reference_id_supplied_or_fresh session session limit_sell limit_sell
           empty_world first_world second_world third_world 0 2).
  - exact counter_uuid_inj.
  - vm_compute. reflexivity.
  - vm_compute. reflexivity.
  - vm_compute. reflexivity.
  - eapply rtc_l; [|apply rtc_refl].
    apply (step_constructor _ _ session limit_buy (Ok 1)). vm_compute. reflexivity.
  - vm_compute. reflexivity.
  - vm_compute. reflexivity.
  - vm_compute. reflexivity.
Defined.

(** ** Sorting *)

Section SortFacts.
Context (P : Platform).

Lemma compare_refl_eq (a : string) : String.compare a a = Eq.
Proof.
  pose proof (String.compare_antisym a a) as H.
  destruct (String.compare a a); simpl in H; try reflexivity; discriminate.
Qed.

Lemma compareMultiple_le {A} (d1 d2 : decorated A) (a b : string) :
  criteria d1 = VStr a -> criteria d2 = VStr b ->
  (compareMultiple P d1 d2 <=? 0)%Z = true -> String.leb a b = true.
Proof.
  intros H1 H2. unfold compareMultiple, compareAscending, js_lt. rewrite H1, H2. simpl.
  unfold String.ltb, String.leb. rewrite (String.compare_antisym b a).
  destruct (String.eqb a b) eqn:Heq; simpl.
  - apply String.eqb_eq in Heq. subst b. intros _. now rewrite compare_refl_eq.
  - destruct (String.compare a b); simpl; intros H; try reflexivity. discriminate.
Qed.

Lemma compareMultiple_gt {A} (d1 d2 : decorated A) (a b : string) :
  criteria d1 = VStr a -> criteria d2 = VStr b ->
  (compareMultiple P d1 d2 <=? 0)%Z = false -> String.leb b a = true.
Proof.
  intros H1 H2. unfold compareMultiple, compareAscending, js_lt. rewrite H1, H2. simpl.
  unfold String.ltb, String.leb. rewrite (String.compare_antisym b a).
  destruct (String.eqb a b) eqn:Heq; simpl.
  - apply String.eqb_eq in Heq. subst b. intros _. now rewrite compare_refl_eq.
  - destruct (String.compare a b); simpl; intros H; try reflexivity. discriminate.
Qed.

Lemma insert_by_Permutation {A} (cmp : A -> A -> Z) x s :
  Permutation (insert_by cmp x s) (x :: s).
Proof.
  induction s as [|y s IH]; simpl; [reflexivity|].
  destruct (cmp x y <=? 0)%Z; [reflexivity|].
  rewrite IH. apply perm_swap.
Qed.

Lemma sort_Permutation {A} (cmp : A -> A -> Z) l : Permutation (sort cmp l) l.
Proof.
  induction l as [|x l IH]; simpl; [reflexivity|].
  rewrite insert_by_Permutation. now constructor.
Qed.

Lemma decorate_payload {A} (f : A -> value) i l :
  List.map payload (decorate f i l) = l.
Proof. revert i. induction l as [|x l IH]; intros i; simpl; [reflexivity|]. now rewrite IH. Qed.

Lemma decorate_criteria {A} (f : A -> value) i l :
  Forall (fun d => criteria d = f (payload d)) (decorate f i l).
Proof. revert i. induction l as [|x l IH]; intros i; simpl; constructor; auto. Qed.

Lemma sortBy_Permutation {A} (l : list A) f : Permutation (sortBy P l f) l.
Proof.
  unfold sortBy. rewrite <- (decorate_payload f 0 l) at 2.
  apply Permutation_map, sort_Permutation.
Qed.

(** Decorated elements in ascending order of their string criteria. *)
Lemma insert_by_Sorted {A} (x : decorated A) s :
  (exists a, criteria x = VStr a) ->
  Forall (fun d => exists a, criteria d = VStr a) s ->
  Sorted (fun d1 d2 => created_at_le (criteria d1) (criteria d2)) s ->
  Sorted (fun d1 d2 => created_at_le (criteria d1) (criteria d2))
    (insert_by (compareMultiple P) x s).
Proof.
  intros [a Ha] Hstr Hsorted. induction s as [|y s IH]; simpl.
  - repeat constructor.
  - apply Forall_cons_1 in Hstr as [[b Hb] Hstr].
    apply Sorted_inv in Hsorted as [Hsorted Hhd].
    destruct (compareMultiple P x y <=? 0)%Z eqn:Hcmp.
    + constructor; [constructor; assumption|]. constructor.
      unfold created_at_le. rewrite Ha, Hb. eapply compareMultiple_le; eauto.
    + constructor; [auto|].
      assert (Hyx : created_at_le (criteria y) (criteria x)).
      { unfold created_at_le. rewrite Ha, Hb. eapply compareMultiple_gt; eauto. }
      destruct s as [|z s]; simpl; [constructor; exact Hyx|].
      destruct (compareMultiple P x z <=? 0)%Z; constructor; [exact Hyx|].
      now apply HdRel_inv in Hhd.
Qed.

Lemma sort_Sorted {A} (ds : list (decorated A)) :
  Forall (fun d => exists a, criteria d = VStr a) ds ->
  Sorted (fun d1 d2 => created_at_le (criteria d1) (criteria d2))
    (sort (compareMultiple P) ds).
Proof.
  induction ds as [|d ds IH]; intros Hstr; simpl; [constructor|].
  apply Forall_cons_1 in Hstr as [Hd Hstr].
  apply insert_by_Sorted; auto.
  eapply Permutation_Forall; [symmetry; apply sort_Permutation|exact Hstr].
Qed.

Lemma Sorted_payload {A} (f : A -> value) (ds : list (decorated A)) :
  Forall (fun d => criteria d = f (payload d)) ds ->
  Sorted (fun d1 d2 => created_at_le (criteria d1) (criteria d2)) ds ->
  Sorted (fun x y => created_at_le (f x) (f y)) (List.map payload ds).
Proof.
  induction ds as [|d ds IH]; intros Hcrit Hsorted; simpl; [constructor|].
  apply Forall_cons_1 in Hcrit as [Hd Hcrit].
  apply Sorted_inv in Hsorted as [Hsorted Hhd].
  constructor; [auto|].
  destruct ds as [|d' ds]; simpl; constructor.
  apply HdRel_inv in Hhd. apply Forall_cons_1 in Hcrit as [Hd' _].
  now rewrite <- Hd, <- Hd'.
Qed.

(** [_.sortBy] orders by the code units of string keys. *)
Lemma sortBy_Sorted {A} (l : list A) (f : A -> value) :
  Forall (fun x => exists a, f x = VStr a) l ->
  Sorted (fun x y => created_at_le (f x) (f y)) (sortBy P l f).
Proof.
  intros Hstr. unfold sortBy. apply Sorted_payload.
  - eapply Permutation_Forall; [symmetry; apply sort_Permutation|apply decorate_criteria].
  - apply sort_Sorted.
    pose proof (decorate_criteria f 0 l) as Hcrit.
    rewrite <- (decorate_payload f 0 l) in Hstr.
    induction (decorate f 0 l) as [|d ds IH]; [constructor|].
    apply Forall_cons_1 in Hcrit as [Hd Hcrit]. simpl in Hstr.
    apply Forall_cons_1 in Hstr as [[a Ha] Hstr].
    constructor; [|auto]. exists a. congruence.
Qed.

End SortFacts.

(** ** getOrders *)

Lemma existing_order_created_at user object :
  this_prop (existing_order user object) "created_at" = prop object "created_at".
Proof. reflexivity. Qed.

Lemma existing_order_executed user object :
  isExecuted (existing_order user object) = VBool true.
Proof. reflexivity. Qed.

(** The loop keeps, in order, the entries that carry [state] and
    allocates an existing order for each. *)
Lemma wrap_each_objects user os array w :
  Forall (fun o => o <> VUndefined /\ o <> VNull) os ->
  wrap_each user os array w
  = (Ok (array ++ seq (length (heap w)) (length (List.filter has_state os)))%list,
     {| heap := heap w ++ List.map (existing_order user) (List.filter has_state os);
        network := network w;
        uuid_source := uuid_source w;
        uuid_drawn := uuid_drawn w |}).
Proof.
  intros Hobj. revert array w.
  induction Hobj as [|o os [Hu Hn] _ IH]; intros array w.
  - simpl. rewrite !app_nil_r. now destruct w.
  - cbn [wrap_each List.filter]. unfold mbind, M_bind, lift.
    assert (Hget : get_prop o "state" = Ok (prop o "state")).
    { destruct o; simpl; congruence. }
    rewrite Hget. fold (has_state o).
    destruct (has_state o) eqn:Hstate.
    + unfold has_state in Hstate. apply negb_true_iff, strict_eq_undefined_false in Hstate.
      rewrite constructor_existing by auto.
      rewrite IH. cbn [heap allocated length List.map]. rewrite length_app. cbn [length].
      rewrite Nat.add_1_r, <- !app_assoc. reflexivity.
    + apply IH.
Qed.

Lemma lookup_appended {A} (old new : list A) (i : nat) :
  i < length new -> (old ++ new)%list !! (length old + i) = new !! i.
Proof. intros _. rewrite lookup_app_r by lia. f_equal. lia. Qed.

(** C8, as the code has it: for a listing of objects, [getOrders] sends
    one request, keeps exactly the entries that carry [state], allocates
    for each an existing order, and resolves to a rearrangement of their
    references; when the kept entries' [created_at] are strings, the
    references come in ascending code-unit order of [created_at]. *)
Theorem getOrders_sorted_by_created_at (P : Platform) (user : User)
    (handleResponse : request -> handled) (w : world) (os : list value) :
  handleResponse (listing_request user) = Success (VArr os) ->
  Forall (fun o => o <> VUndefined /\ o <> VNull) os ->
  exists (locs : list loc) (w' : world),
    getOrders P user handleResponse w = (Resolved locs, w')
    /\ heap w' = (heap w ++ List.map (existing_order user) (List.filter has_state os))%list
    /\ network w' = (network w ++ [listing_request user])%list
    /\ Permutation locs (seq (length (heap w)) (length (List.filter has_state os)))
    /\ (Forall (fun o => exists s, prop o "created_at" = VStr s) (List.filter has_state os) ->
        Sorted (fun l1 l2 => created_at_le (deref_prop w' "created_at" l1)
                                           (deref_prop w' "created_at" l2)) locs).
Proof.
  intros Hres Hobj. unfold getOrders.
  change {| method := "GET"; uri := "https://api.robinhood.com/options/orders/";
            authorization := "Bearer " ++ getAuthToken user; json := None |}
    with (listing_request user).
  rewrite Hres, (wrap_each_objects _ _ _ _ Hobj). simpl.
  set (kept := List.filter has_state os).
  set (w' := {| heap := heap w ++ List.map (existing_order user) kept;
                network := network w ++ [listing_request user];
                uuid_source := uuid_source w; uuid_drawn := uuid_drawn w |}).
  exists (sortBy P (seq (length (heap w)) (length kept)) (deref_prop w' "created_at")), w'.
  split; [reflexivity|]. split; [reflexivity|]. split; [reflexivity|].
  split; [apply sortBy_Permutation|].
  intros Hstr. apply sortBy_Sorted.
  apply Forall_forall. intros l Hl. apply elem_of_seq in Hl as [Hlo Hhi].
  assert (Hi : l - length (heap w) < length kept) by lia.
  destruct (lookup_lt_is_Some_2 kept _ Hi) as [o Ho].
  assert (Hin : o ∈ kept) by (apply list_elem_of_lookup; eauto).
  destruct (proj1 (Forall_forall _ _) Hstr o Hin) as [s Hs].
  exists s. unfold deref_prop, w'. simpl.
  replace l with (length (heap w) + (l - length (heap w))) by lia.
  rewrite lookup_appended by (rewrite length_map; exact Hi).
  rewrite list_lookup_fmap, Ho. simpl.
  now rewrite existing_order_created_at.
Qed.

Lemma getOrders_sorted_by_created_at_witness :
  exists (locs : list loc) (w' : world),
    getOrders {| StringToNumber := fun _ => nan;
                 NumberToString := fun _ => "NaN";
                 DateParseOther := fun _ => None |}
      session (accepts (VArr listing)) empty_world = (Resolved locs, w')
    /\ heap w' = (heap empty_world
                  ++ List.map (existing_order session) (List.filter has_state listing))%list
    /\ network w' = (network empty_world ++ [listing_request session])%list
    /\ Permutation locs (seq (length (heap empty_world))
                             (length (List.filter has_state listing)))
    /\ (Forall (fun o => exists s, prop o "created_at" = VStr s)
          (List.filter has_state listing) ->
        Sorted (fun l1 l2 => created_at_le (deref_prop w' "created_at" l1)
                                           (deref_prop w' "created_at" l2)) locs).
Proof.
  apply (getOrders_sorted_by_created_at _ session (accepts (VArr listing))
           empty_world listing).
  - reflexivity.
  - repeat constructor; discriminate.
Defined.

(** C8 as stated fails: the order [getOrders] returns is that of the
    [created_at] strings, which is not the order of the dates
    [getDateCreated()] makes of them; on every platform, a record stamped
    half a second later comes first here. *)
Lemma getOrders_not_chronological :
  ~ (exists (P : Platform) (locs : list loc) (w' : world),
        getOrders P session (accepts (VArr listing)) empty_world = (Resolved locs, w')
        /\ Sorted (fun l1 l2 => Date_le (deref_date P w' l1) (deref_date P w' l2)) locs).
Proof.
  intros (P & locs & w' & Hget & Hsorted).
  vm_compute in Hget. injection Hget as <- <-.
  apply Sorted_inv in Hsorted as [Hsorted _].
  apply Sorted_inv in Hsorted as [_ Hhd].
  apply HdRel_inv in Hhd. vm_compute in Hhd. apply Hhd. reflexivity.
Qed.

(** ** Further properties of construction and of the two requests *)

(** X1: a parameter set without [state] and [cancel_url] that passes every
    check constructs a pending order: [executed] is false, the form is in
    place, and no request is sent. *)
Theorem valid_parameters_construct (user : User) (object : value) (w : world) :
  prop object "state" = VUndefined ->
  prop object "cancel_url" = VUndefined ->
  valid_parameters user object ->
  exists (w' : world) (this : instance),
    constructor user object w = (Ok (length (heap w)), w')
    /\ heap w' = (heap w ++ [this])%list
    /\ isExecuted this = VBool false
    /\ this_prop this "form" <> VUndefined
    /\ network w' = network w.
Proof.
  intros Hstate Hcancel Hvalid.
  assert (Hget : get_prop object "state" = Ok VUndefined).
  { rewrite <- Hstate. destruct Hvalid as (_ & Hside & _).
    apply (prop_defined_get_prop object "side").
    destruct Hside as [-> | ->]; discriminate. }
  rewrite (constructor_new _ _ _ Hget Hcancel).
  rewrite (proj2 (validate_iff_valid_parameters _ _) Hvalid).
  destruct (strict_eq (prop object "ref_id") VUndefined);
    eexists _, _; (split; [reflexivity|]); repeat split; discriminate.
Qed.

Lemma valid_parameters_construct_witness :
  exists (w' : world) (this : instance),
    constructor session limit_buy empty_world = (Ok (length (heap empty_world)), w')
    /\ heap w' = (heap empty_world ++ [this])%list
    /\ isExecuted this = VBool false
    /\ this_prop this "form" <> VUndefined
    /\ network w' = network empty_world.
Proof.
  apply (valid_parameters_construct session limit_buy empty_world).
  - vm_compute. reflexivity.
  - vm_compute. reflexivity.
  - apply validate_iff_valid_parameters. vm_compute. reflexivity.
Defined.

(** X2: a parameter set without [state] and [cancel_url] that violates a
    check is refused: the constructor throws and the world is left as it
    was; and when the session is authenticated, what is thrown is one of
    the validation errors, never a [TypeError]. *)
Theorem invalid_parameters_rejected (user : User) (object : value) (w : world) :
  get_prop object "state" = Ok VUndefined ->
  prop object "cancel_url" = VUndefined ->
  ~ valid_parameters user object ->
  exists e : exn,
    constructor user object w = (Throw e, w)
    /\ (isAuthenticated user = Some true -> exists message, e = Error message).
Proof.
  intros Hget Hcancel Hinvalid.
  rewrite (constructor_new _ _ _ Hget Hcancel).
  destruct (_validate user object) as [[]|e] eqn:Hvalidate.
  - destruct Hinvalid. now apply validate_iff_valid_parameters.
  - exists e. split; [reflexivity|].
    intros Hauth. exact (validate_throws_Error _ _ _ Hauth Hvalidate).
Qed.

Lemma invalid_parameters_rejected_witness :
  exists e : exn,
    constructor session market_buy empty_world = (Throw e, empty_world)
    /\ (isAuthenticated session = Some true -> exists message, e = Error message).
Proof.
  apply (invalid_parameters_rejected session market_buy empty_world).
  - vm_compute. reflexivity.
  - vm_compute. reflexivity.
  - intros (_ & _ & _ & Hcombo & _). apply Hcombo. split; vm_compute; reflexivity.
Defined.

(** X3: the constructor sends no request, whatever it is given. *)
Theorem constructor_sends_nothing (user : User) (object : value) (w : world) :
  network (snd (constructor user object w)) = network w.
Proof.
  destruct (constructor_cases user object w) as [(e & ->)|(this & drawn & ->)]; reflexivity.
Qed.

(** X4: when the provider or the transport fails, [submit()] rejects with
    that failure; one request was sent, and no instance is created or
    changed. *)
Theorem submit_failure_rejects (w : world) (this : loc) (_this : instance)
    (handleResponse : request -> handled) (err : value) :
  heap w !! this = Some _this ->
  isExecuted _this = VBool false ->
  handleResponse (submit_request _this) = Failure err ->
  submit this handleResponse w = (Rejected err, send (submit_request _this) w)
  /\ heap (send (submit_request _this) w) = heap w.
Proof.
  intros Hthis Hexec Hfail. unfold submit, isExecuted in *.
  rewrite Hthis, Hexec. simpl.
  change {| method := "POST"; uri := url _this ++ "/options/orders/";
            authorization := "Bearer " ++ getAuthToken (user _this);
            json := Some (this_prop _this "form") |}
    with (submit_request _this).
  rewrite Hfail. split; reflexivity.
Qed.

Lemma submit_failure_rejects_witness :
  submit 0 (fun _ => Failure (VStr "Insufficient buying power")) pending_world
  = (Rejected (VStr "Insufficient buying power"),
     send (submit_request (new_order session limit_buy (VStr "abc"))) pending_world)
  /\ heap (send (submit_request (new_order session limit_buy (VStr "abc"))) pending_world)
     = heap pending_world.
Proof.
  apply (submit_failure_rejects pending_world 0
           (new_order session limit_buy (VStr "abc"))
           (fun _ => Failure (VStr "Insufficient buying power"))).
  - vm_compute. reflexivity.
  - vm_compute. reflexivity.
  - reflexivity.
Defined.

(** X5: when the provider or the transport fails, [getOrders] rejects with
    that failure and creates no instance. *)
Theorem getOrders_failure_rejects (P : Platform) (user : User)
    (handleResponse : request -> handled) (w : world) (err : value) :
  handleResponse (listing_request user) = Failure err ->
  getOrders P user handleResponse w = (Rejected err, send (listing_request user) w).
Proof.
  intros Hfail. unfold getOrders.
  change {| method := "GET"; uri := "https://api.robinhood.com/options/orders/";
            authorization := "Bearer " ++ getAuthToken user; json := None |}
    with (listing_request user).
  now rewrite Hfail.
Qed.

Lemma getOrders_failure_rejects_witness :
  getOrders {| StringToNumber := fun _ => nan;
               NumberToString := fun _ => "NaN";
               DateParseOther := fun _ => None |}
    session (fun _ => Failure (VStr "timeout")) empty_world
  = (Rejected (VStr "timeout"), send (listing_request session) empty_world).
Proof.
  apply (getOrders_failure_rejects _ session (fun _ => Failure (VStr "timeout"))
           empty_world).
  reflexivity.
Defined.

(** * More of the class *)

(** ** Existing orders, field by field *)

Lemma foldl_set_prop_other (f : string -> value) keys base key :
  ~ In key keys ->
  this_prop (foldl (fun this k => set_prop k (f k) this) base keys) key
  = this_prop base key.
Proof.
  revert base. induction keys as [|k keys IH]; intros base Hnot; simpl; [reflexivity|].
  rewrite IH by (intros H; apply Hnot; now right).
  unfold this_prop, set_prop. simpl.
  rewrite lookup_insert_ne; [reflexivity|]. intros ->. apply Hnot. now left.
Qed.

Lemma existing_order_copied user object key :
  In key copied_keys -> this_prop (existing_order user object) key = prop object key.
Proof.
  intros Hin. unfold copied_keys in Hin.
  repeat (destruct Hin as [<-|Hin]; [reflexivity|]).
  destruct Hin.
Qed.

Lemma existing_order_not_copied user object key :
  ~ In key copied_keys -> key <> "executed" ->
  this_prop (existing_order user object) key = VUndefined.
Proof.
  intros Hnot Hexec. unfold existing_order.
  rewrite foldl_set_prop_other by exact Hnot.
  unfold this_prop, set_prop. simpl.
  rewrite lookup_insert_ne by congruence. reflexivity.
Qed.


Lemma observe_existing_order P user object :
  observe P (existing_order user object) = record_outputs P object.
Proof. reflexivity. Qed.

(** X7: an object that carries [state] or [cancel_url] is taken as an
    existing order without any validation, for every session: the
    instance is flagged executed, holds each of the copied properties
    exactly as the object has it, and holds no other property, neither a
    form nor anything else the object may carry. *)
Theorem existing_order_copies (user : User) (object : value) (w : world) :
  prop object "state" <> VUndefined \/ prop object "cancel_url" <> VUndefined ->
  exists this : instance,
    constructor user object w = (Ok (length (heap w)), allocated this 0 w)
    /\ VerticalOptionOrder.user this = user
    /\ isExecuted this = VBool true
    /\ (forall key, In key copied_keys -> this_prop this key = prop object key)
    /\ (forall key, ~ In key copied_keys -> key <> "executed" ->
        this_prop this key = VUndefined).
Proof.
  intros Hmark. exists (existing_order user object).
  split; [now apply constructor_existing|].
  split; [reflexivity|]. split; [reflexivity|].
  split.
  - intros key. apply existing_order_copied.
  - intros key. apply existing_order_not_copied.
Qed.

Lemma existing_order_copies_witness :
  exists this : instance,
    constructor session (filled "2019-01-01T00:00:00Z") empty_world
    = (Ok (length (heap empty_world)), allocated this 0 empty_world)
    /\ VerticalOptionOrder.user this = session
    /\ isExecuted this = VBool true
    /\ (forall key, In key copied_keys ->
        this_prop this key = prop (filled "2019-01-01T00:00:00Z") key)
    /\ (forall key, ~ In key copied_keys -> key <> "executed" ->
        this_prop this key = VUndefined).
Proof.
  apply (existing_order_copies session (filled "2019-01-01T00:00:00Z") empty_world).
  left. vm_compute. discriminate.
Defined.

(** ** submit, step by step *)

Lemma isExecuted_false_truthy this :
  isExecuted this = VBool false -> truthy (this_prop this "executed") = false.
Proof. unfold isExecuted. now intros ->. Qed.

Lemma isExecuted_true_truthy this :
  isExecuted this = VBool true -> truthy (this_prop this "executed") = true.
Proof. unfold isExecuted. now intros ->. Qed.

(** What [submit] does on an instance that is not flagged. *)
Lemma submit_pending w this _this handleResponse :
  heap w !! this = Some _this ->
  truthy (this_prop _this "executed") = false ->
  submit this handleResponse w
  = match handleResponse (submit_request _this) with
    | Success res =>
        match constructor (user _this) res
                (store this "executed" (VBool true) (send (submit_request _this) w)) with
        | (Ok l, w') => (Resolved l, w')
        | (Throw e, w') => (Uncaught e, w')
        end
    | Failure err => (Rejected err, send (submit_request _this) w)
    end.
Proof. intros Hthis Hexec. unfold submit. rewrite Hthis, Hexec. reflexivity. Qed.

Lemma submit_flagged w this _this handleResponse :
  heap w !! this = Some _this ->
  truthy (this_prop _this "executed") = true ->
  submit this handleResponse w
  = (Rejected (VStr "This order has already been executed!"), w).
Proof. intros Hthis Hexec. unfold submit. rewrite Hthis, Hexec. reflexivity. Qed.

Lemma store_lookup l key v w this :
  heap w !! l = Some this ->
  heap (store l key v w) !! l = Some (set_prop key v this).
Proof.
  intros H. rewrite (store_heap _ _ _ _ _ H).
  apply list_lookup_insert_eq. eapply lookup_lt_Some; eauto.
Qed.

Lemma store_length l key v w : length (heap (store l key v w)) = length (heap w).
Proof.
  unfold store. simpl. destruct (heap w !! l); [apply length_insert|reflexivity].
Qed.

Lemma constructor_keeps_network user object w r w' :
  constructor user object w = (r, w') -> network w' = network w.
Proof.
  intros H.
  destruct (constructor_cases user object w) as [(e & He)|(this & drawn & Hok)].
  - rewrite He in H. now injection H as _ <-.
  - rewrite Hok in H. now injection H as _ <-.
Qed.

(** A pending [submit] sends its request whatever comes back. *)
Lemma submit_pending_network w this _this handleResponse :
  heap w !! this = Some _this ->
  truthy (this_prop _this "executed") = false ->
  network (snd (submit this handleResponse w))
  = (network w ++ [submit_request _this])%list.
Proof.
  intros Hthis Hexec. rewrite (submit_pending _ _ _ _ Hthis Hexec).
  destruct (handleResponse (submit_request _this)) as [res|err]; [|reflexivity].
  destruct (constructor _ _ _) as [[l|e] w'] eqn:Hnew;
    exact (constructor_keeps_network _ _ _ _ _ Hnew).
Qed.

(** X6: when the provider answers a pending order's [submit()] with a
    record that carries [state] or [cancel_url], the promise resolves to a
    new reference whose instance belongs to the same session, has no
    form, and whose accessors return the record's fields: verbatim for
    the property accessors, through [Number] for price and quantities,
    through [Date] for the creation date. *)
Theorem submit_result_reads_response (P : Platform) (w : world) (this : loc)
    (_this : instance) (handleResponse : request -> handled) (res : value) :
  heap w !! this = Some _this ->
  isExecuted _this = VBool false ->
  handleResponse (submit_request _this) = Success res ->
  prop res "state" <> VUndefined \/ prop res "cancel_url" <> VUndefined ->
  exists (w' : world) (new : instance),
    submit this handleResponse w = (Resolved (length (heap w)), w')
    /\ heap w' !! length (heap w) = Some new
    /\ user new = user _this
    /\ observe P new = record_outputs P res
    /\ this_prop new "form" = VUndefined.
Proof.
  intros Hthis Hexec Hres Hmark.
  rewrite (submit_pending _ _ _ _ Hthis (isExecuted_false_truthy _ Hexec)), Hres.
  rewrite (constructor_existing _ _ _ Hmark), store_length.
  eexists _, (existing_order (user _this) res).
  split; [reflexivity|]. split.
  - change (length (heap w)) with (length (heap (send (submit_request _this) w))) at 1.
    rewrite <- (store_length this "executed" (VBool true)).
    apply allocated_lookup.
  - repeat split.
Qed.

Lemma submit_result_reads_response_witness :
  exists (w' : world) (new : instance),
    submit 0 (accepts (filled "2019-01-02T00:00:00Z")) pending_world
    = (Resolved (length (heap pending_world)), w')
    /\ heap w' !! length (heap pending_world) = Some new
    /\ user new = user (new_order session limit_buy (VStr "abc"))
    /\ observe numerals new = record_outputs numerals (filled "2019-01-02T00:00:00Z")
    /\ this_prop new "form" = VUndefined.
Proof.
  apply (submit_result_reads_response numerals pending_world 0
           (new_order session limit_buy (VStr "abc"))
           (accepts (filled "2019-01-02T00:00:00Z"))
           (filled "2019-01-02T00:00:00Z")).
  - vm_compute. reflexivity.
  - vm_compute. reflexivity.
  - reflexivity.
  - left. vm_compute. discriminate.
Defined.

(** X15: when the provider's success body carries neither [state] nor
    [cancel_url] and is not itself a valid parameter set (no parsed body
    is, and neither is [undefined] or [null]), the success continuation
    throws after having flagged the order: nothing is resolved, no
    instance is created, and the order is left executed. *)
Theorem submit_unrecognised_response (w : world) (this : loc) (_this : instance)
    (handleResponse : request -> handled) (res : value) :
  heap w !! this = Some _this ->
  isExecuted _this = VBool false ->
  handleResponse (submit_request _this) = Success res ->
  prop res "state" = VUndefined ->
  prop res "cancel_url" = VUndefined ->
  ~ valid_parameters (user _this) res ->
  exists e : exn,
    submit this handleResponse w
    = (Uncaught e, store this "executed" (VBool true) (send (submit_request _this) w))
    /\ deref_prop (store this "executed" (VBool true) (send (submit_request _this) w))
         "executed" this = VBool true
    /\ length (heap (store this "executed" (VBool true) (send (submit_request _this) w)))
       = length (heap w).
Proof.
  intros Hthis Hexec Hres Hstate Hcancel Hinvalid.
  rewrite (submit_pending _ _ _ _ Hthis (isExecuted_false_truthy _ Hexec)), Hres.
  set (w1 := store this "executed" (VBool true) (send (submit_request _this) w)).
  assert (Hthrow : exists e, constructor (user _this) res w1 = (Throw e, w1)).
  { destruct (get_prop res "state") as [state|e] eqn:Hget.
    - assert (state = VUndefined) as ->.
      { destruct res; simpl in *; congruence. }
      rewrite (constructor_new _ _ _ Hget Hcancel).
      destruct (_validate (user _this) res) as [[]|e] eqn:Hvalidate; [|eauto].
      destruct Hinvalid. now apply validate_iff_valid_parameters.
    - exists e. unfold constructor, mbind, M_bind, lift. now rewrite Hget. }
  destruct Hthrow as [e ->]. exists e. split; [reflexivity|]. split.
  - unfold deref_prop, w1. rewrite (store_lookup _ _ _ _ _this) by exact Hthis.
    unfold this_prop, set_prop. simpl. now rewrite lookup_insert_eq.
  - unfold w1. now rewrite store_length.
Qed.

Lemma submit_unrecognised_response_witness :
  exists e : exn,
    submit 0 (accepts (object_literal [("detail", VStr "accepted")])) pending_world
    = (Uncaught e,
       store 0 "executed" (VBool true)
         (send (submit_request (new_order session limit_buy (VStr "abc"))) pending_world))
    /\ deref_prop
         (store 0 "executed" (VBool true)
            (send (submit_request (new_order session limit_buy (VStr "abc"))) pending_world))
         "executed" 0 = VBool true
    /\ length (heap (store 0 "executed" (VBool true)
                       (send (submit_request (new_order session limit_buy (VStr "abc")))
                          pending_world)))
       = length (heap pending_world).
Proof.
  apply (submit_unrecognised_response pending_world 0
           (new_order session limit_buy (VStr "abc"))
           (accepts (object_literal [("detail", VStr "accepted")]))
           (object_literal [("detail", VStr "accepted")])).
  - vm_compute. reflexivity.
  - vm_compute. reflexivity.
  - reflexivity.
  - vm_compute. reflexivity.
  - vm_compute. reflexivity.
  - intros (_ & [Hside|Hside] & _); vm_compute in Hside; discriminate.
Defined.

(** X14: a pending order whose [submit()] was rejected is still pending
    and unchanged; submitting it again sends the very same request, with
    the same payload and reference identifier, whatever the provider
    answers the second time. *)
Theorem rejected_submit_can_be_repeated (w w1 : world) (this : loc) (_this : instance)
    (first second : request -> handled) (err : value) :
  heap w !! this = Some _this ->
  isExecuted _this = VBool false ->
  submit this first w = (Rejected err, w1) ->
  heap w1 !! this = Some _this
  /\ network (snd (submit this second w1))
     = (network w ++ [submit_request _this; submit_request _this])%list.
Proof.
  intros Hthis Hexec Hsubmit.
  pose proof (isExecuted_false_truthy _ Hexec) as Hpending.
  rewrite (submit_pending _ _ _ _ Hthis Hpending) in Hsubmit.
  destruct (first (submit_request _this)) as [res|err'].
  - destruct (constructor _ _ _) as [[l|e] w2]; discriminate.
  - injection Hsubmit as _ <-. split; [exact Hthis|].
    rewrite (submit_pending_network (send (submit_request _this) w) this _this second)
      by assumption.
    simpl. now rewrite <- app_assoc.
Qed.

Lemma rejected_submit_can_be_repeated_witness :
  heap (send (submit_request (new_order session limit_buy (VStr "abc"))) pending_world) !! 0
  = Some (new_order session limit_buy (VStr "abc"))
  /\ network (snd (submit 0 (accepts (filled "2019-01-02T00:00:00Z"))
                     (send (submit_request (new_order session limit_buy (VStr "abc")))
                        pending_world)))
     = (network pending_world
        ++ [submit_request (new_order session limit_buy (VStr "abc"));
            submit_request (new_order session limit_buy (VStr "abc"))])%list.
Proof.
  apply (rejected_submit_can_be_repeated pending_world _ 0
           (new_order session limit_buy (VStr "abc"))
           (fun _ => Failure (VStr "Insufficient buying power"))
           (accepts (filled "2019-01-02T00:00:00Z"))
           (VStr "Insufficient buying power")).
  - vm_compute. reflexivity.
  - vm_compute. reflexivity.
  - vm_compute. reflexivity.
Defined.

(** ** Instances over a history *)

Lemma ages_refl w : ages w w.
Proof. intros l this H. exists this. repeat split; auto. Qed.

Lemma ages_trans w1 w2 w3 : ages w1 w2 -> ages w2 w3 -> ages w1 w3.
Proof.
  intros H12 H23 l this H.
  destruct (H12 _ _ H) as (this' & H' & Hurl' & Huser' & Hkeys' & Hflag').
  destruct (H23 _ _ H') as (this'' & H'' & Hurl'' & Huser'' & Hkeys'' & Hflag'').
  exists this''. split; [exact H''|].
  split; [congruence|]. split; [congruence|]. split.
  - intros key Hkey. rewrite Hkeys'' by exact Hkey. now apply Hkeys'.
  - destruct Hflag' as [->|[Hpending Hset']].
    + exact Hflag''.
    + right. split; [exact Hpending|].
      destruct Hflag'' as [->|[Hpending' _]]; [exact Hset'|].
      rewrite Hset' in Hpending'. discriminate.
Qed.

Lemma allocated_ages this drawn w : ages w (allocated this drawn w).
Proof.
  intros l old H. exists old. repeat split; auto.
  simpl. rewrite lookup_app_l; [exact H|]. eapply lookup_lt_Some; eauto.
Qed.

Lemma send_ages req w : ages w (send req w).
Proof. intros l this H. exists this. repeat split; auto. Qed.

Lemma store_executed_ages l w this :
  heap w !! l = Some this ->
  truthy (this_prop this "executed") = false ->
  ages w (store l "executed" (VBool true) w).
Proof.
  intros Hthis Hpending l' old H.
  rewrite (store_heap _ _ _ _ _ Hthis).
  destruct (decide (l = l')) as [<-|Hne].
  - rewrite Hthis in H. injection H as <-.
    exists (set_prop "executed" (VBool true) this). split.
    + apply list_lookup_insert_eq. eapply lookup_lt_Some; eauto.
    + repeat split.
      * intros key Hkey. unfold this_prop, set_prop. simpl.
        now rewrite lookup_insert_ne by congruence.
      * right. split; [exact Hpending|].
        unfold this_prop, set_prop. simpl. now rewrite lookup_insert_eq.
  - exists old. rewrite list_lookup_insert_ne by exact Hne. repeat split; auto.
Qed.

Lemma constructor_ages user object w r w' :
  constructor user object w = (r, w') -> ages w w'.
Proof.
  intros H. destruct (constructor_cases user object w) as [(e & He)|(this & drawn & Hok)].
  - rewrite He in H. injection H as _ <-. apply ages_refl.
  - rewrite Hok in H. injection H as _ <-. apply allocated_ages.
Qed.

Lemma wrap_each_ages user res array w r w' :
  wrap_each user res array w = (r, w') -> ages w w'.
Proof.
  revert array w. induction res as [|o res IH]; intros array w H; simpl in H.
  - injection H as _ <-. apply ages_refl.
  - unfold mbind, M_bind, lift in H.
    destruct (get_prop o "state") as [state|e]; [|injection H as _ <-; apply ages_refl].
    destruct (negb (strict_eq state VUndefined)).
    + destruct (constructor user o w) as [[l|e] w1] eqn:Hnew.
      * eapply ages_trans; [eapply constructor_ages; eauto|eauto].
      * injection H as _ <-. eapply constructor_ages; eauto.
    + eauto.
Qed.

Lemma submit_ages this handleResponse w r w' :
  submit this handleResponse w = (r, w') -> ages w w'.
Proof.
  destruct (heap w !! this) as [_this|] eqn:Hthis.
  - destruct (truthy (this_prop _this "executed")) eqn:Hexec.
    + rewrite (submit_flagged _ _ _ _ Hthis Hexec). intros H. injection H as _ <-.
      apply ages_refl.
    + rewrite (submit_pending _ _ _ _ Hthis Hexec).
      destruct (handleResponse (submit_request _this)) as [res|err].
      * destruct (constructor _ _ _) as [[l|e] w2] eqn:Hnew; intros H; injection H as _ <-;
          (eapply ages_trans; [apply send_ages|];
           eapply ages_trans;
             [apply (store_executed_ages this (send (submit_request _this) w) _this);
                assumption|];
           eapply constructor_ages; eauto).
      * intros H. injection H as _ <-. apply send_ages.
  - unfold submit. rewrite Hthis. intros H. injection H as _ <-. apply ages_refl.
Qed.

Lemma getOrders_ages P user handleResponse w r w' :
  getOrders P user handleResponse w = (r, w') -> ages w w'.
Proof.
  unfold getOrders.
  match goal with |- context [handleResponse ?req] => set (request := req) end.
  destruct (handleResponse request) as [res|err];
    [|intros H; injection H as _ <-; apply send_ages].
  destruct res; try (intros H; injection H as _ <-; apply send_ages).
  destruct (wrap_each _ _ _ _) as [[array|e] w2] eqn:Hwrap; intros H; injection H as _ <-;
    (eapply ages_trans; [apply send_ages|]; eapply wrap_each_ages; eauto).
Qed.

Lemma step_ages w w' : step w w' -> ages w w'.
Proof.
  intros [user object r H|this handleResponse r H|P user handleResponse r H].
  - eapply constructor_ages; eauto.
  - eapply submit_ages; eauto.
  - eapply getOrders_ages; eauto.
Qed.

Lemma steps_age w w' : rtc step w w' -> ages w w'.
Proof.
  induction 1 as [w|w1 w2 w3 Hstep _ IH].
  - apply ages_refl.
  - eapply ages_trans; [apply step_ages|]; eauto.
Qed.

(** X10: over any sequence of constructions, submissions and listings,
    an instance stays at its reference with its session, its URL and
    every property but [executed]; an instance already flagged executed
    does not change at all, and a pending one changes only by being
    flagged. *)
Theorem instances_only_gain_executed (w w' : world) (l : loc) (this : instance) :
  rtc step w w' ->
  heap w !! l = Some this ->
  exists this' : instance,
    heap w' !! l = Some this'
    /\ url this' = url this
    /\ user this' = user this
    /\ (forall key, key <> "executed" -> this_prop this' key = this_prop this key)
    /\ (truthy (isExecuted this) = true -> this' = this)
    /\ (this' = this \/ isExecuted this' = VBool true).
Proof.
  intros Hsteps Hthis.
  destruct (steps_age _ _ Hsteps _ _ Hthis)
    as (this' & H' & Hurl & Huser & Hkeys & Hflag).
  exists this'. repeat split; auto.
  - intros Hexec. destruct Hflag as [->|[Hpending _]]; [reflexivity|].
    unfold isExecuted in Hexec. congruence.
  - destruct Hflag as [->|[_ Hset]]; auto.
Qed.

Lemma instances_only_gain_executed_witness :
  exists this' : instance,
    heap (snd (submit 0 (accepts (filled "2019-01-02T00:00:00Z")) pending_world)) !! 0
    = Some this'
    /\ url this' = url (new_order session limit_buy (VStr "abc"))
    /\ user this' = user (new_order session limit_buy (VStr "abc"))
    /\ (forall key, key <> "executed" ->
        this_prop this' key = this_prop (new_order session limit_buy (VStr "abc")) key)
    /\ (truthy (isExecuted (new_order session limit_buy (VStr "abc"))) = true ->
        this' = new_order session limit_buy (VStr "abc"))
    /\ (this' = new_order session limit_buy (VStr "abc") \/ isExecuted this' = VBool true).
Proof.
  apply (instances_only_gain_executed pending_world
           (snd (submit 0 (accepts (filled "2019-01-02T00:00:00Z")) pending_world))
           0 (new_order session limit_buy (VStr "abc"))).
  - eapply rtc_l; [|apply rtc_refl].
    apply (step_submit _ _ 0 (accepts (filled "2019-01-02T00:00:00Z")) (Resolved 1)).
    vm_compute. reflexivity.
  - vm_compute. reflexivity.
Defined.

(** X13: once [submit()] has resolved for an order, every later
    [submit()] on it, after any other operations, is rejected at once
    and leaves the world, network log included, as it is. *)
Theorem submitted_order_rejects_resubmission (w w1 w2 : world) (this l : loc)
    (_this : instance) (first second : request -> handled) :
  heap w !! this = Some _this ->
  isExecuted _this = VBool false ->
  submit this first w = (Resolved l, w1) ->
  rtc step w1 w2 ->
  submit this second w2
  = (Rejected (VStr "This order has already been executed!"), w2).
Proof.
  intros Hthis Hexec Hsubmit Hsteps.
  pose proof (isExecuted_false_truthy _ Hexec) as Hpending.
  assert (Hflagged : heap w1 !! this = Some (set_prop "executed" (VBool true) _this)).
  { rewrite (submit_pending _ _ _ _ Hthis Hpending) in Hsubmit.
    destruct (first (submit_request _this)) as [res|err]; [|discriminate].
    destruct (constructor _ _ _) as [[l1|e] w1'] eqn:Hnew; [|discriminate].
    injection Hsubmit as _ <-.
    destruct (constructor_ok_inv _ _ _ _ _ Hnew) as (_ & new & drawn & -> & _).
    unfold allocated. cbn [heap]. rewrite lookup_app_l.
    - apply store_lookup. exact Hthis.
    - rewrite store_length. cbn [heap send]. eapply lookup_lt_Some; eauto. }
  destruct (steps_age _ _ Hsteps _ _ Hflagged) as (this' & H' & _ & _ & _ & Hflag).
  assert (this' = set_prop "executed" (VBool true) _this) as ->.
  { destruct Hflag as [->|[Hno _]]; [reflexivity|].
    unfold this_prop, set_prop in Hno. simpl in Hno.
    rewrite lookup_insert_eq in Hno. discriminate. }
  apply (submit_flagged _ _ _ _ H').
  unfold this_prop, set_prop. simpl. now rewrite lookup_insert_eq.
Qed.

Lemma submitted_order_rejects_resubmission_witness :
  submit 0 (accepts (filled "2019-01-03T00:00:00Z"))
    (snd (constructor session limit_sell
            (snd (submit 0 (accepts (filled "2019-01-02T00:00:00Z")) pending_world))))
  = (Rejected (VStr "This order has already been executed!"),
     snd (constructor session limit_sell
            (snd (submit 0 (accepts (filled "2019-01-02T00:00:00Z")) pending_world)))).
Proof.
  apply (submitted_order_rejects_resubmission pending_world
           (snd (submit 0 (accepts (filled "2019-01-02T00:00:00Z")) pending_world))
           _ 0 1 (new_order session limit_buy (VStr "abc"))
           (accepts (filled "2019-01-02T00:00:00Z"))).
  - vm_compute. reflexivity.
  - vm_compute. reflexivity.
  - vm_compute. reflexivity.
  - eapply rtc_l; [|apply rtc_refl].
    apply (step_constructor _ _ session limit_sell (Ok 2)). vm_compute. reflexivity.
Defined.

(** ** The network log over a history *)

Lemma wrap_each_keeps_network user res array w r w' :
  wrap_each user res array w = (r, w') -> network w' = network w.
Proof.
  revert array w. induction res as [|o res IH]; intros array w H; simpl in H.
  - now injection H as _ <-.
  - unfold mbind, M_bind, lift in H.
    destruct (get_prop o "state") as [state|e]; [|now injection H as _ <-].
    destruct (negb (strict_eq state VUndefined)).
    + destruct (constructor user o w) as [[l|e] w1] eqn:Hnew.
      * rewrite (IH _ _ H). eapply constructor_keeps_network; eauto.
      * injection H as _ <-. eapply constructor_keeps_network; eauto.
    + eauto.
Qed.

Lemma getOrders_network P user handleResponse w :
  network (snd (getOrders P user handleResponse w))
  = (network w ++ [listing_request user])%list.
Proof.
  unfold getOrders.
  change {| method := "GET"; uri := "https://api.robinhood.com/options/orders/";
            authorization := "Bearer " ++ getAuthToken user; json := None |}
    with (listing_request user).
  destruct (handleResponse (listing_request user)) as [res|err]; [|reflexivity].
  destruct res; try reflexivity.
  destruct (wrap_each _ _ _ _) as [[array|e] w2] eqn:Hwrap; simpl;
    now rewrite (wrap_each_keeps_network _ _ _ _ _ _ Hwrap).
Qed.

Lemma step_network w w' :
  step w w' ->
  exists sent : list request,
    network w' = (network w ++ sent)%list
    /\ length sent <= 1
    /\ Forall (fun req => (exists user, req = listing_request user)
                          \/ exists this _this,
                               heap w !! this = Some _this
                               /\ truthy (isExecuted _this) = false
                               /\ req = submit_request _this) sent.
Proof.
  intros [user object r H|this handleResponse r H|P user handleResponse r H].
  - exists []. rewrite app_nil_r. split; [eapply constructor_keeps_network; eauto|].
    split; [simpl; lia|constructor].
  - destruct (heap w !! this) as [_this|] eqn:Hthis.
    + destruct (truthy (this_prop _this "executed")) eqn:Hexec.
      * rewrite (submit_flagged _ _ _ _ Hthis Hexec) in H. injection H as _ <-.
        exists []. rewrite app_nil_r. repeat split; [simpl; lia|constructor].
      * exists [submit_request _this].
        pose proof (submit_pending_network w this _this handleResponse Hthis Hexec) as Hnet.
        rewrite H in Hnet. split; [exact Hnet|]. split; [simpl; lia|].
        constructor; [|constructor]. right. now exists this, _this.
    + unfold submit in H. rewrite Hthis in H. injection H as _ <-.
      exists []. rewrite app_nil_r. repeat split; [simpl; lia|constructor].
  - exists [listing_request user].
    pose proof (getOrders_network P user handleResponse w) as Hnet. rewrite H in Hnet.
    split; [exact Hnet|]. split; [simpl; lia|]. constructor; [|constructor]. left. now exists user.
Qed.

(** X12: over any sequence of operations the network log only grows at
    its end, and every request added is the listing request of some
    session or the submission request of some instance. *)
Theorem network_log_is_append_only (w w' : world) :
  rtc step w w' ->
  exists sent : list request,
    network w' = (network w ++ sent)%list
    /\ Forall (fun req => (exists user, req = listing_request user)
                          \/ exists _this, req = submit_request _this) sent.
Proof.
  induction 1 as [w|w1 w2 w3 Hstep _ (sent & Hnet & Hshape)].
  - exists []. now rewrite app_nil_r.
  - destruct (step_network _ _ Hstep) as (first & Hfirst & _ & Hfirst_shape).
    exists (first ++ sent)%list. split.
    + now rewrite Hnet, Hfirst, app_assoc.
    + apply Forall_app. split; [|exact Hshape].
      eapply Forall_impl; [exact Hfirst_shape|].
      intros req [Hget|(this & _this & _ & _ & ->)]; [now left|right; eauto].
Qed.

(** X11: one operation sends at most one request: a construction none,
    [getOrders] its listing request, and [submit] the request of an
    instance that was pending before the call, or none. *)
Theorem operation_sends_at_most_one_request (w w' : world) :
  step w w' ->
  network w' = network w
  \/ (exists user, network w' = (network w ++ [listing_request user])%list)
  \/ exists (this : loc) (_this : instance),
       heap w !! this = Some _this
       /\ truthy (isExecuted _this) = false
       /\ network w' = (network w ++ [submit_request _this])%list.
Proof.
  intros Hstep. destruct (step_network _ _ Hstep) as (sent & Hnet & Hlen & Hshape).
  destruct sent as [|req [|req' sent]]; simpl in Hlen; [| |lia].
  - left. now rewrite app_nil_r in Hnet.
  - right. apply Forall_cons_1 in Hshape as [[[user ->]|(this & _this & H1 & H2 & ->)] _].
    + left. eauto.
    + right. exists this, _this. auto.
Qed.

Lemma network_log_is_append_only_witness :
  exists sent : list request,
    network (snd (submit 0 (accepts (filled "2019-01-02T00:00:00Z")) pending_world))
    = (network pending_world ++ sent)%list
    /\ Forall (fun req => (exists user, req = listing_request user)
                          \/ exists _this, req = submit_request _this) sent.
Proof.
  apply (network_log_is_append_only pending_world
           (snd (submit 0 (accepts (filled "2019-01-02T00:00:00Z")) pending_world))).
  eapply rtc_l; [|apply rtc_refl].
  apply (step_submit _ _ 0 (accepts (filled "2019-01-02T00:00:00Z")) (Resolved 1)).
  vm_compute. reflexivity.
Defined.

Lemma operation_sends_at_most_one_request_witness :
  network (snd (submit 0 (accepts (filled "2019-01-02T00:00:00Z")) pending_world))
  = network pending_world
  \/ (exists user,
        network (snd (submit 0 (accepts (filled "2019-01-02T00:00:00Z")) pending_world))
        = (network pending_world ++ [listing_request user])%list)
  \/ exists (this : loc) (_this : instance),
       heap pending_world !! this = Some _this
       /\ truthy (isExecuted _this) = false
       /\ network (snd (submit 0 (accepts (filled "2019-01-02T00:00:00Z")) pending_world))
          = (network pending_world ++ [submit_request _this])%list.
Proof.
  apply (operation_sends_at_most_one_request pending_world
           (snd (submit 0 (accepts (filled "2019-01-02T00:00:00Z")) pending_world))).
  apply (step_submit _ _ 0 (accepts (filled "2019-01-02T00:00:00Z")) (Resolved 1)).
  vm_compute. reflexivity.
Defined.

(** X8: the payload of every new order is well formed: the account URL
    of the session; the caller's type, which is "limit" unless the order
    is a credit; the caller's numeric price and quantity; the caller's
    time in force exactly as written (validated in any letter case, sent
    as given); trigger "immediate"; both override flags false; a
    reference identifier that is not [undefined]; and two legs with ratio
    1 that point at the URLs of the two instruments. *)
Theorem new_order_payload (user : User) (object : value) (w w' : world) (l : loc) :
  constructor user object w = (Ok l, w') ->
  prop object "state" = VUndefined ->
  prop object "cancel_url" = VUndefined ->
  exists (price quantity : float) (time_in_force : string) (leg1 leg2 : value),
    prop (deref_prop w' "form" l) "account"
    = VStr (Robinhood_url ++ "/accounts/" ++ getAccountNumber user ++ "/")
    /\ prop (deref_prop w' "form" l) "type" = prop object "type"
    /\ (prop object "type" = VStr "limit"
        \/ prop object "type" = VStr "market"
           /\ prop (deref_prop w' "form" l) "direction" = VStr "credit")
    /\ prop object "price" = VNum price
    /\ prop (deref_prop w' "form" l) "price" = VNum price
    /\ prop object "quantity" = VNum quantity
    /\ prop (deref_prop w' "form" l) "quantity" = VNum quantity
    /\ prop object "timeInForce" = VStr time_in_force
    /\ prop (deref_prop w' "form" l) "time_in_force" = VStr time_in_force
    /\ In (lower_string time_in_force) ["gfd"; "gtc"; "ioc"; "opg"]
    /\ prop (deref_prop w' "form" l) "trigger" = VStr "immediate"
    /\ prop (deref_prop w' "form" l) "override_day_trade_checks" = VBool false
    /\ prop (deref_prop w' "form" l) "override_dtbp_checks" = VBool false
    /\ prop (deref_prop w' "form" l) "ref_id" <> VUndefined
    /\ prop (deref_prop w' "form" l) "legs" = VArr [leg1; leg2]
    /\ prop leg1 "option" = prop (prop object "longLeg") "instrumentURL"
    /\ prop leg2 "option" = prop (prop object "shortLeg") "instrumentURL"
    /\ prop leg1 "ratio_quantity" = VNum 1%float
    /\ prop leg2 "ratio_quantity" = VNum 1%float.
Proof.
  intros Hnew Hstate Hcancel.
  destruct (constructor_new_inv _ _ _ _ _ Hnew Hstate Hcancel)
    as (Hvalid & -> & ref_id & drawn & -> & Href).
  apply validate_iff_valid_parameters in Hvalid
    as (_ & Hside & Htype & Hcombo & [price Hprice] & (tif & Htif & Hin) & _ & _
        & [quantity Hquantity]).
  rewrite allocated_deref, new_order_form.
  exists price, quantity, tif. eexists _, _.
  split; [reflexivity|]. split; [reflexivity|]. split.
  { destruct Htype as [Hmarket|Hlimit]; [right|now left].
    split; [exact Hmarket|]. apply form_direction_credit.
    destruct (strict_eq (prop object "side") (VStr "buy")) eqn:Hbuy; [|reflexivity].
    apply strict_eq_str in Hbuy. destruct Hcombo. auto. }
  split; [exact Hprice|]. split; [rewrite <- Hprice; reflexivity|].
  split; [exact Hquantity|]. split; [rewrite <- Hquantity; reflexivity|].
  split; [exact Htif|]. split; [rewrite <- Htif; reflexivity|].
  split; [exact Hin|].
  split; [reflexivity|]. split; [reflexivity|]. split; [reflexivity|].
  split.
  { rewrite form_ref_id.
    destruct Href as [(_ & _ & ->)|(Hsup & _ & ->)]; [discriminate|exact Hsup]. }
  repeat split.
Qed.

Lemma new_order_payload_witness :
  exists (price quantity : float) (time_in_force : string) (leg1 leg2 : value),
    prop (deref_prop pending_world "form" 0) "account"
    = VStr (Robinhood_url ++ "/accounts/" ++ getAccountNumber session ++ "/")
    /\ prop (deref_prop pending_world "form" 0) "type" = prop limit_buy "type"
    /\ (prop limit_buy "type" = VStr "limit"
        \/ prop limit_buy "type" = VStr "market"
           /\ prop (deref_prop pending_world "form" 0) "direction" = VStr "credit")
    /\ prop limit_buy "price" = VNum price
    /\ prop (deref_prop pending_world "form" 0) "price" = VNum price
    /\ prop limit_buy "quantity" = VNum quantity
    /\ prop (deref_prop pending_world "form" 0) "quantity" = VNum quantity
    /\ prop limit_buy "timeInForce" = VStr time_in_force
    /\ prop (deref_prop pending_world "form" 0) "time_in_force" = VStr time_in_force
    /\ In (lower_string time_in_force) ["gfd"; "gtc"; "ioc"; "opg"]
    /\ prop (deref_prop pending_world "form" 0) "trigger" = VStr "immediate"
    /\ prop (deref_prop pending_world "form" 0) "override_day_trade_checks" = VBool false
    /\ prop (deref_prop pending_world "form" 0) "override_dtbp_checks" = VBool false
    /\ prop (deref_prop pending_world "form" 0) "ref_id" <> VUndefined
    /\ prop (deref_prop pending_world "form" 0) "legs" = VArr [leg1; leg2]
    /\ prop leg1 "option" = prop (prop limit_buy "longLeg") "instrumentURL"
    /\ prop leg2 "option" = prop (prop limit_buy "shortLeg") "instrumentURL"
    /\ prop leg1 "ratio_quantity" = VNum 1%float
    /\ prop leg2 "ratio_quantity" = VNum 1%float.
Proof.
  apply (new_order_payload session limit_buy empty_world pending_world 0);
    vm_compute; reflexivity.
Defined.

(** X9: an argument that is not an object never constructs an order and
    leaves the world alone: [undefined] and [null] raise a [TypeError]
    at the first property read, whatever the session; anything else is
    refused inside [_validate], with the error for 'side' when the
    session is authenticated. *)
Theorem non_object_refused (user : User) (object : value) (w : world) :
  (forall cls m, object <> VObj cls m) ->
  (exists e : exn, constructor user object w = (Throw e, w))
  /\ (nullish object -> constructor user object w = (Throw TypeError, w))
  /\ (~ nullish object ->
      isAuthenticated user = Some true ->
      constructor user object w
      = (Throw (Error "Object property 'side' must be a string"), w)).
Proof.
  intros Hnot.
  destruct object as [| |b|x|s|xs|cls m]; try (destruct (Hnot cls m eq_refl)).
  1, 2: (split; [eexists; reflexivity|]; split;
         [reflexivity|intros Hno; destruct Hno; unfold nullish; auto]).
  all: (rewrite constructor_new by reflexivity;
        split; [destruct (_validate user _) as [[]|e] eqn:Hv;
                  [apply validate_side in Hv as [Hv|Hv]; discriminate|eauto]|];
        split; [intros [H|H]; discriminate|];
        intros _ Hauth; unfold _validate; rewrite Hauth; reflexivity).
Qed.

Lemma non_object_refused_witness :
  (exists e : exn, constructor session (VStr "buy") empty_world = (Throw e, empty_world))
  /\ (nullish (VStr "buy") ->
      constructor session (VStr "buy") empty_world = (Throw TypeError, empty_world))
  /\ (~ nullish (VStr "buy") ->
      isAuthenticated session = Some true ->
      constructor session (VStr "buy") empty_world
      = (Throw (Error "Object property 'side' must be a string"), empty_world)).
Proof.
  apply (non_object_refused session (VStr "buy") empty_world).
  intros cls m. discriminate.
Defined.

(** ** getOrders on a listing with a hole *)

Lemma wrap_each_app user before after array w :
  wrap_each user (before ++ after) array w
  = match wrap_each user before array w with
    | (Ok array', w') => wrap_each user after array' w'
    | (Throw e, w') => (Throw e, w')
    end.
Proof.
  revert array w. induction before as [|o before IH]; intros array w; [reflexivity|].
  cbn [app wrap_each]. unfold mbind, M_bind, lift.
  destruct (get_prop o "state") as [state|e]; [|reflexivity].
  destruct (negb (strict_eq state VUndefined)); [|apply IH].
  destruct (constructor user o w) as [[l|e] w1]; [apply IH|reflexivity].
Qed.

(** X16: a listing with an [undefined] or [null] entry makes the loop
    of [getOrders] throw a [TypeError] at that entry: the promise is not
    settled, but the orders of the entries before it have already been
    created. *)
Theorem getOrders_stops_at_nullish_entry (P : Platform) (user : User)
    (handleResponse : request -> handled) (w : world)
    (before after : list value) (o : value) :
  handleResponse (listing_request user) = Success (VArr (before ++ o :: after)) ->
  Forall (fun o => o <> VUndefined /\ o <> VNull) before ->
  nullish o ->
  exists w' : world,
    getOrders P user handleResponse w = (Uncaught TypeError, w')
    /\ heap w' = (heap w ++ List.map (existing_order user) (List.filter has_state before))%list
    /\ network w' = (network w ++ [listing_request user])%list.
Proof.
  intros Hres Hbefore Hnull. unfold getOrders.
  change {| method := "GET"; uri := "https://api.robinhood.com/options/orders/";
            authorization := "Bearer " ++ getAuthToken user; json := None |}
    with (listing_request user).
  rewrite Hres, wrap_each_app, (wrap_each_objects _ _ _ _ Hbefore).
  cbn [wrap_each]. unfold mbind, M_bind, lift.
  assert (Hget : get_prop o "state" = Throw TypeError).
  { destruct Hnull as [-> | ->]; reflexivity. }
  rewrite Hget. eexists. split; [reflexivity|]. split; reflexivity.
Qed.

Lemma getOrders_stops_at_nullish_entry_witness :
  exists w' : world,
    getOrders numerals session
      (accepts (VArr ([filled "2019-01-01T00:00:00Z"] ++ VNull :: [filled "2019-01-02T00:00:00Z"])))
      empty_world = (Uncaught TypeError, w')
    /\ heap w' = (heap empty_world
                  ++ List.map (existing_order session)
                       (List.filter has_state [filled "2019-01-01T00:00:00Z"]))%list
    /\ network w' = (network empty_world ++ [listing_request session])%list.
Proof.
  apply (getOrders_stops_at_nullish_entry numerals session _ empty_world
           [filled "2019-01-01T00:00:00Z"] [filled "2019-01-02T00:00:00Z"] VNull).
  - reflexivity.
  - repeat constructor; discriminate.
  - right. reflexivity.
Defined.

(** ** Stability of the sort *)

Section Stability.
Context (P : Platform).

(** Decorated elements: by string criterion, then by position. *)
Lemma compareMultiple_stable_le {A} (d1 d2 : decorated A) (a b : string) :
  criteria d1 = VStr a -> criteria d2 = VStr b ->
  (compareMultiple P d1 d2 <=? 0)%Z = true ->
  String.ltb a b = true \/ a = b /\ (index d1 <= index d2)%Z.
Proof.
  intros H1 H2. unfold compareMultiple, compareAscending, js_lt. rewrite H1, H2. simpl.
  unfold String.ltb. rewrite (String.compare_antisym b a).
  destruct (String.eqb a b) eqn:Heq; simpl.
  - apply String.eqb_eq in Heq. intros H. right. split; [exact Heq|]. lia.
  - destruct (String.compare a b) eqn:Hcmp; simpl; intros H.
    + apply String.compare_eq_iff in Hcmp. apply String.eqb_neq in Heq. contradiction.
    + now left.
    + discriminate.
Qed.

Lemma compareMultiple_stable_gt {A} (d1 d2 : decorated A) (a b : string) :
  criteria d1 = VStr a -> criteria d2 = VStr b ->
  (compareMultiple P d1 d2 <=? 0)%Z = false ->
  String.ltb b a = true \/ b = a /\ (index d2 <= index d1)%Z.
Proof.
  intros H1 H2. unfold compareMultiple, compareAscending, js_lt. rewrite H1, H2. simpl.
  unfold String.ltb. rewrite (String.compare_antisym b a).
  destruct (String.eqb a b) eqn:Heq; simpl.
  - apply String.eqb_eq in Heq. intros H. right. split; [now symmetry|]. lia.
  - destruct (String.compare a b) eqn:Hcmp; simpl; intros H.
    + apply String.compare_eq_iff in Hcmp. apply String.eqb_neq in Heq. contradiction.
    + discriminate.
    + now left.
Qed.

Lemma insert_by_stable {A} (x : decorated A) s :
  (exists a, criteria x = VStr a) ->
  Forall (fun d => exists a, criteria d = VStr a) s ->
  Sorted (fun d1 d2 => exists a b, criteria d1 = VStr a /\ criteria d2 = VStr b
                         /\ (String.ltb a b = true \/ a = b /\ (index d1 <= index d2)%Z)) s ->
  Sorted (fun d1 d2 => exists a b, criteria d1 = VStr a /\ criteria d2 = VStr b
                         /\ (String.ltb a b = true \/ a = b /\ (index d1 <= index d2)%Z))
    (insert_by (compareMultiple P) x s).
Proof.
  intros [a Ha] Hstr Hsorted. induction s as [|y s IH]; simpl.
  - repeat constructor.
  - apply Forall_cons_1 in Hstr as [[b Hb] Hstr].
    apply Sorted_inv in Hsorted as [Hsorted Hhd].
    destruct (compareMultiple P x y <=? 0)%Z eqn:Hcmp.
    + constructor; [constructor; assumption|]. constructor.
      exists a, b. split; [exact Ha|]. split; [exact Hb|].
      eapply compareMultiple_stable_le; eauto.
    + constructor; [auto|].
      assert (Hyx : exists b' a', criteria y = VStr b' /\ criteria x = VStr a'
                      /\ (String.ltb b' a' = true \/ b' = a' /\ (index y <= index x)%Z)).
      { exists b, a. split; [exact Hb|]. split; [exact Ha|].
        eapply compareMultiple_stable_gt; eauto. }
      destruct s as [|z s]; simpl; [constructor; exact Hyx|].
      destruct (compareMultiple P x z <=? 0)%Z; constructor; [exact Hyx|].
      now apply HdRel_inv in Hhd.
Qed.

Lemma sort_stable {A} (ds : list (decorated A)) :
  Forall (fun d => exists a, criteria d = VStr a) ds ->
  Sorted (fun d1 d2 => exists a b, criteria d1 = VStr a /\ criteria d2 = VStr b
                         /\ (String.ltb a b = true \/ a = b /\ (index d1 <= index d2)%Z))
    (sort (compareMultiple P) ds).
Proof.
  induction ds as [|d ds IH]; intros Hstr; simpl; [constructor|].
  apply Forall_cons_1 in Hstr as [Hd Hstr].
  apply insert_by_stable; auto.
  eapply Permutation_Forall; [symmetry; apply sort_Permutation|exact Hstr].
Qed.

Lemma decorate_seq_index (f : nat -> value) (i : Z) (start len : nat) :
  Forall (fun d => index d = (Z.of_nat (payload d) + (i - Z.of_nat start))%Z
                   /\ criteria d = f (payload d))
    (decorate f i (seq start len)).
Proof.
  revert i start. induction len as [|len IH]; intros i start; simpl; constructor.
  - simpl. split; [lia|reflexivity].
  - eapply Forall_impl; [apply IH|]. intros d [Hi Hc]. split; [lia|exact Hc].
Qed.

(** [_.sortBy] on consecutive references with string keys: ascending
    keys, and ascending references among equal keys. *)
Lemma sortBy_seq_stable (f : nat -> value) (start len : nat) :
  Forall (fun l => exists a, f l = VStr a) (seq start len) ->
  Sorted (fun l1 l2 => exists a b, f l1 = VStr a /\ f l2 = VStr b
                         /\ (String.ltb a b = true \/ a = b /\ l1 <= l2))
    (sortBy P (seq start len) f).
Proof.
  intros Hstr. unfold sortBy.
  pose proof (decorate_seq_index f 0 start len) as Hdec.
  assert (Hkeys : Forall (fun d => exists a, criteria d = VStr a)
                    (decorate f 0 (seq start len))).
  { rewrite <- (decorate_payload f 0 (seq start len)) in Hstr.
    induction (decorate f 0 (seq start len)) as [|d ds IH]; [constructor|].
    apply Forall_cons_1 in Hdec as [[_ Hc] Hdec]. simpl in Hstr.
    apply Forall_cons_1 in Hstr as [[a Ha] Hstr].
    constructor; [|auto]. exists a. congruence. }
  pose proof (sort_stable _ Hkeys) as Hsorted.
  assert (Hdec' : Forall (fun d => index d = (Z.of_nat (payload d) + (0 - Z.of_nat start))%Z
                                   /\ criteria d = f (payload d))
                    (sort (compareMultiple P) (decorate f 0 (seq start len)))).
  { eapply Permutation_Forall; [symmetry; apply sort_Permutation|exact Hdec]. }
  induction Hsorted as [|d ds Hsorted IH Hhd]; simpl; [constructor|].
  apply Forall_cons_1 in Hdec' as [[Hi Hc] Hdec'].
  constructor; [auto|].
  destruct Hhd as [|d' ds' (a & b & Ha & Hb & Hord)]; simpl; constructor.
  apply Forall_cons_1 in Hdec' as [[Hi' Hc'] _].
  exists a, b. split; [congruence|]. split; [congruence|].
  destruct Hord as [Hlt|[Heq Hle]]; [now left|right]. split; [exact Heq|]. lia.
Qed.

End Stability.


(** ** The order of strings is transitive *)

Lemma ascii_compare_lt_trans (x y z : ascii) :
  Ascii.compare x y = Lt -> Ascii.compare y z = Lt -> Ascii.compare x z = Lt.
Proof.
  unfold Ascii.compare. rewrite !N.compare_lt_iff. lia.
Qed.

Lemma string_compare_lt_trans (a b c : string) :
  String.compare a b = Lt -> String.compare b c = Lt -> String.compare a c = Lt.
Proof.
  revert b c. induction a as [|x a IH]; intros [|y b] [|z c]; simpl; try discriminate; auto.
  destruct (Ascii.compare x y) eqn:Hxy; try discriminate;
    destruct (Ascii.compare y z) eqn:Hyz; try discriminate; intros Hab Hbc.
  - apply Ascii.compare_eq_iff in Hxy, Hyz. subst.
    rewrite (proj2 (N.compare_eq_iff _ _) eq_refl : Ascii.compare z z = Eq). eauto.
  - apply Ascii.compare_eq_iff in Hxy. subst. now rewrite Hyz.
  - apply Ascii.compare_eq_iff in Hyz. subst. now rewrite Hxy.
  - now rewrite (ascii_compare_lt_trans _ _ _ Hxy Hyz).
Qed.

Lemma string_ltb_trans (a b c : string) :
  String.ltb a b = true -> String.ltb b c = true -> String.ltb a c = true.
Proof.
  unfold String.ltb.
  destruct (String.compare a b) eqn:Hab; try discriminate.
  destruct (String.compare b c) eqn:Hbc; try discriminate.
  now rewrite (string_compare_lt_trans _ _ _ Hab Hbc).
Qed.

Lemma created_at_then_position_trans w l1 l2 l3 :
  created_at_then_position w l1 l2 ->
  created_at_then_position w l2 l3 ->
  created_at_then_position w l1 l3.
Proof.
  intros (a & b & Ha & Hb & H12) (b' & c & Hb' & Hc & H23).
  rewrite Hb in Hb'. injection Hb' as <-.
  exists a, c. split; [exact Ha|]. split; [exact Hc|].
  destruct H12 as [H12|[-> H12]], H23 as [H23|[<- H23]].
  - left. eapply string_ltb_trans; eauto.
  - now left.
  - now left.
  - right. split; [reflexivity|lia].
Qed.

(** X17: for a listing of objects whose kept entries have string
    [created_at], any two references in the result of [getOrders] come
    in ascending code-unit order of [created_at], and two with the same
    [created_at] come in the order of the listing. *)
Theorem getOrders_is_stable (P : Platform) (user : User)
    (handleResponse : request -> handled) (w : world) (os : list value) :
  handleResponse (listing_request user) = Success (VArr os) ->
  Forall (fun o => o <> VUndefined /\ o <> VNull) os ->
  Forall (fun o => exists s, prop o "created_at" = VStr s) (List.filter has_state os) ->
  exists (locs : list loc) (w' : world),
    getOrders P user handleResponse w = (Resolved locs, w')
    /\ StronglySorted (created_at_then_position w') locs.
Proof.
  intros Hres Hobj Hstr. unfold getOrders.
  change {| method := "GET"; uri := "https://api.robinhood.com/options/orders/";
            authorization := "Bearer " ++ getAuthToken user; json := None |}
    with (listing_request user).
  rewrite Hres, (wrap_each_objects _ _ _ _ Hobj). simpl.
  set (kept := List.filter has_state os) in *.
  set (w' := {| heap := heap w ++ List.map (existing_order user) kept;
                network := network w ++ [listing_request user];
                uuid_source := uuid_source w; uuid_drawn := uuid_drawn w |}).
  eexists _, w'. split; [reflexivity|].
  apply Sorted_StronglySorted.
  { intros l1 l2 l3. apply created_at_then_position_trans. }
  apply (sortBy_seq_stable P (deref_prop w' "created_at")).
  apply Forall_forall. intros l Hl. apply elem_of_seq in Hl as [Hlo Hhi].
  assert (Hi : l - length (heap w) < length kept) by lia.
  destruct (lookup_lt_is_Some_2 kept _ Hi) as [o Ho].
  assert (Hin : o ∈ kept) by (apply list_elem_of_lookup; eauto).
  destruct (proj1 (Forall_forall _ _) Hstr o Hin) as [s Hs].
  exists s. unfold deref_prop, w'. simpl.
  replace l with (length (heap w) + (l - length (heap w))) by lia.
  rewrite lookup_appended by (rewrite length_map; exact Hi).
  rewrite list_lookup_fmap, Ho. simpl.
  now rewrite existing_order_created_at.
Qed.

Lemma getOrders_is_stable_witness :
  exists (locs : list loc) (w' : world),
    getOrders numerals session
      (accepts (VArr [filled "2019-01-01T00:00:00Z"; filled "2018-12-31T23:59:59Z";
                      filled "2019-01-01T00:00:00Z"]))
      empty_world = (Resolved locs, w')
    /\ StronglySorted (created_at_then_position w') locs.
Proof.
  apply (getOrders_is_stable numerals session _ empty_world
           [filled "2019-01-01T00:00:00Z"; filled "2018-12-31T23:59:59Z";
            filled "2019-01-01T00:00:00Z"]).
  - reflexivity.
  - repeat constructor; discriminate.
  - vm_compute. repeat (constructor; [eexists; reflexivity|]). constructor.
Defined.
